(** * CanneX: ranging, alert arbitration and transports

    A shallow embedding of the core of the CanneX assistance cane:

    - [src/sensors/ultrasonic.py]   : [UltrasonicSensor.measure_distance]
    - [src/main.py]                 : [CanneApp.obstacle_detection_loop],
                                      [CanneApp._handle_bt_get_status]
    - [src/connectivity/bluetooth.py], [src/connectivity/usb.py] :
                                      [_process_received_data], [broadcast]
    - [src/detection/object_detector.py] : [ObjectDetector.detect_objects]

    Python floats (distances in cm, [time.time()] readings in seconds) are
    modelled by exact rationals [Q]: the order tests and the rounding to two
    decimals are those of the source, the rounding error of float arithmetic
    is left out. *)

From Stdlib Require Import QArith Qround Qabs Lqa Lia ZArith List Bool.
From stdpp Require Import gmap strings list fin_maps sorting pretty.
Import ListNotations.

Local Open Scope Q_scope.

(** ** Numeric helpers *)

(** [a > b] on floats, as a boolean. *)
Definition Qgtb (a b : Q) : bool := negb (Qle_bool a b).

(** [a < b] on floats, as a boolean. *)
Definition Qltb (a b : Q) : bool := negb (Qle_bool b a).

(** Python's [int(x)] on a float: truncation toward zero. *)
Definition py_int (x : Q) : Z := Z.quot (Qnum x) (Zpos (Qden x)).

(** Rounding to the nearest integer, ties to the even one: [n] is the floor
    of [x] and [twice_frac] twice the distance from it. *)
Definition round_half_even (x : Q) : Z :=
  let n := Qfloor x in
  let twice_frac := 2 * (x - inject_Z n) in
  if Qltb twice_frac 1 then n
  else if Qltb 1 twice_frac then (n + 1)%Z
  else if Z.even n then n else (n + 1)%Z.

(** Python's [round(x, 2)]: the nearest multiple of 1/100, ties to even. *)
Definition py_round2 (x : Q) : Q := Qred (inject_Z (round_half_even (x * 100)) / 100).

(** ** [config.py] *)
Module config.

Record ULTRASONIC_CONFIG_t := {
  MAX_DISTANCE : Q;
  WARNING_DISTANCE : Q;
  DANGER_DISTANCE : Q;
  MEASURE_INTERVAL : Q
}.

(** The values shipped in [config.py]. *)
Definition ULTRASONIC_CONFIG : ULTRASONIC_CONFIG_t :=
  {| MAX_DISTANCE := 300; WARNING_DISTANCE := 100;
     DANGER_DISTANCE := 50; MEASURE_INTERVAL := 1 |}.

End config.

(** ** Python values

    JSON documents and the values of Python object attributes.  A [JDict] keeps
    its items in insertion order, as a Python [dict] does. *)
#[warnings="-register-all"]
Inductive json : Type :=
  | JNull
  | JBool (b : bool)
  | JInt (z : Z)
  | JFloat (q : Q)
  | JStr (s : string)
  | JList (l : list json)
  | JDict (items : list (string * json)).

(** [d.get(key)] on the items of a dict. *)
Fixpoint dict_get (key : string) (items : list (string * json)) : option json :=
  match items with
  | [] => None
  | (k, v) :: rest => if String.eqb k key then Some v else dict_get key rest
  end.

(** [d.get(key, default)]. *)
Definition dict_get_default (key : string) (dflt : json) (items : list (string * json)) : json :=
  match dict_get key items with Some v => v | None => dflt end.

(** [getattr(obj, name, default)] on the attribute dictionary of an instance. *)
Definition getattr (attrs : gmap string json) (name : string) (dflt : json) : json :=
  match attrs !! name with Some v => v | None => dflt end.

(** ** [sensors/ultrasonic.py] *)
Module ultrasonic.

(** The attributes [__init__] stores on the instance; no method assigns any
    other. *)
Record UltrasonicSensor := {
  trig_pin : Z;
  echo_pin : Z;
  max_distance : Q
}.

(** [UltrasonicSensor.__init__]: [max_distance] defaults to 300. *)
Definition new (trig echo : Z) (max : option Q) : UltrasonicSensor :=
  {| trig_pin := trig; echo_pin := echo;
     max_distance := match max with Some m => m | None => 300 end |}.

(** The instance [__dict__], for [getattr]. *)
Definition instance_dict (self : UltrasonicSensor) : gmap string json :=
  <["trig_pin" := JInt (trig_pin self)]>
    (<["echo_pin" := JInt (echo_pin self)]>
      (<["max_distance" := JFloat (max_distance self)]> ∅)).

(** The hardware seen by one call: the successive answers of [time.time()]
    and of [GPIO.input(echo_pin)] ([true] is level 1). *)
Record Hardware := {
  clock : nat -> Q;
  echo : nat -> bool
}.

(** How far the call has consumed the hardware, and what it wrote to the
    trigger pin. *)
Record Cursor := {
  time_calls : nat;
  input_calls : nat;
  trig_writes : list bool
}.

Definition start : Cursor :=
  {| time_calls := 0; input_calls := 0; trig_writes := [] |}.

Definition gpio_output (level : bool) (c : Cursor) : Cursor :=
  {| time_calls := time_calls c; input_calls := input_calls c;
     trig_writes := trig_writes c ++ [level] |}.

Definition time_time (hw : Hardware) (c : Cursor) : Q * Cursor :=
  (clock hw (time_calls c),
   {| time_calls := S (time_calls c); input_calls := input_calls c;
      trig_writes := trig_writes c |}).

Definition gpio_input (hw : Hardware) (c : Cursor) : bool * Cursor :=
  (echo hw (input_calls c),
   {| time_calls := time_calls c; input_calls := S (input_calls c);
      trig_writes := trig_writes c |}).

(** The result of running a loop with a bound on its iterations. *)
Inductive outcome (A : Type) : Type :=
  | OutOfFuel
  | Return (a : A) (c : Cursor).
Arguments OutOfFuel {A}.
Arguments Return {A} a c.

(** 100 ms, the literal [0.1] of both polling loops. *)
Definition TIMEOUT : Q := 1 # 10.

(** Both polling loops of [measure_distance]:
<<
    while GPIO.input(self.echo_pin) == level:
        pulse = time.time()
        if time.time() - timeout_start > 0.1:
            return None
>>
    [level] is 0 while waiting for the rise and 1 while waiting for the
    fall.  [Return None] is the early [return None]; [Return (Some pulse)]
    leaves the loop with the last recorded time. *)
Fixpoint poll_while (fuel : nat) (hw : Hardware) (level : bool)
    (timeout_start pulse : Q) (c : Cursor) : outcome (option Q) :=
  match fuel with
  | O => OutOfFuel
  | S fuel' =>
      let (v, c1) := gpio_input hw c in
      if Bool.eqb v level then
        let (pulse', c2) := time_time hw c1 in
        let (now, c3) := time_time hw c2 in
        if Qgtb (now - timeout_start) TIMEOUT then Return None c3
        else poll_while fuel' hw level timeout_start pulse' c3
      else Return (Some pulse) c1
  end.

(** Lines 76-93: from the pulse duration to the returned distance. *)
Definition distance_of_pulse (self : UltrasonicSensor) (pulse_duration : Q) : Q :=
  let distance := pulse_duration * 17150 in
  let distance := py_round2 distance in
  if Qgtb distance (max_distance self) then max_distance self else distance.

(** [UltrasonicSensor.measure_distance]; [None] is the timeout result. *)
Definition measure_distance (fuel : nat) (hw : Hardware) (self : UltrasonicSensor)
    (c : Cursor) : outcome (option Q) :=
  let c := gpio_output false c in
  let c := gpio_output true c in
  let c := gpio_output false c in
  let (pulse_start, c) := time_time hw c in
  let (timeout_start, c) := time_time hw c in
  match poll_while fuel hw false timeout_start pulse_start c with
  | OutOfFuel => OutOfFuel
  | Return None c => Return None c
  | Return (Some pulse_start) c =>
      let (pulse_end, c) := time_time hw c in
      let (timeout_start, c) := time_time hw c in
      match poll_while fuel hw true timeout_start pulse_end c with
      | OutOfFuel => OutOfFuel
      | Return None c => Return None c
      | Return (Some pulse_end) c =>
          let pulse_duration := pulse_end - pulse_start in
          Return (Some (distance_of_pulse self pulse_duration)) c
      end
  end.

(** A scripted hardware, as the unit tests build with [side_effect] lists;
    past the end of a script the last answer repeats. *)
Definition scripted (times : list Q) (levels : list bool) : Hardware :=
  {| clock := fun i => nth i times (List.last times 0);
     echo := fun i => nth i levels (List.last levels false) |}.

(** *** Simulated echo lines

    The shapes of input the properties below speak about.  Read [i] of the
    echo pin is [echo hw i]; the check of round [i] of the first loop reads
    [clock hw (2 * i + 3)] against the start [clock hw 1], and after a rise at
    read [k] the check of round [j] of the second loop reads
    [clock hw (2 * k + 2 * j + 5)] against the start [clock hw (2 * k + 3)]. *)

(** The line is low for [k] reads, each round within the budget, then high. *)
Definition rises_at (hw : Hardware) (k : nat) : Prop :=
  (forall i, (i < k)%nat ->
     echo hw i = false /\ clock hw (2 * i + 3) - clock hw 1 <= TIMEOUT)
  /\ echo hw k = true.


(** The times the two loops record for such a pulse. *)
Definition rise_time (hw : Hardware) (k : nat) : Q := clock hw (2 * k).

(** The line stays low until the clock has passed the budget, at round [n]. *)
Definition never_rises (hw : Hardware) (n : nat) : Prop :=
  (forall i, (i <= n)%nat -> echo hw i = false)
  /\ TIMEOUT < clock hw (2 * n + 3) - clock hw 1.

(** The line rises at read [k] and then stays high until the clock has passed
    the budget, at round [n] of the second loop. *)
Definition never_falls (hw : Hardware) (k n : nat) : Prop :=
  rises_at hw k
  /\ (forall j, (j <= n)%nat -> echo hw (S k + j) = true)
  /\ TIMEOUT < clock hw (2 * k + 2 * n + 5) - clock hw (2 * k + 3).

(** Echo high for 0.0292 s, as in [test_measure_distance_max_range]. *)
Definition max_range_hw : Hardware :=
  scripted [0; 1 # 1000; 1 # 1000; 1 # 1000; 1 # 1000; 1 # 1000; 302 # 10000; 302 # 10000]
           [false; true; true; false].

(** Echo stuck low while the clock jumps by 0.2 s, as in
    [test_measure_distance_timeout]. *)
Definition stuck_low_hw : Hardware :=
  scripted [0; 0; 0; 2 # 10] [false].

(** Echo stuck high after a rise. *)
Definition stuck_high_hw : Hardware :=
  scripted [0; 0; 0; 0; 0; 0; 0; 2 # 10] [false; true].

(** Echo high for 0.00292 s, as in [test_measure_distance_normal]. *)
Definition normal_hw : Hardware :=
  scripted [0; 1 # 1000; 1 # 1000; 1 # 1000; 1 # 1000; 1 # 1000; 392 # 100000; 392 # 100000]
           [false; true; true; false].

End ultrasonic.

(** ** [detection/object_detector.py] *)
Module object_detector.

(** A numpy image: only its shape matters here; [frame.size] is the number of
    elements. *)
Record Frame := { shape : list nat }.

Definition size (frame : Frame) : nat := foldr Nat.mul 1%nat (shape frame).

(** One row [detections[0, 0, i, :]] of the network output: class index,
    confidence, and the four relative box coordinates. *)
Record Row := {
  row_class : Z;
  row_confidence : Q;
  row_box : Q * Q * Q * Q
}.

(** An element of the returned list: [(class_name, confidence, box)]. *)
Record Detection := {
  class_name : string;
  confidence : Q;
  box : Z * Z * Z * Z
}.

(** The detector.  [net] stands for the OpenCV pipeline of lines 76-83
    ([cv2.resize], [blobFromImage], [setInput], [forward]); [None] is any
    exception it raises. *)
Record ObjectDetector := {
  confidence_threshold : Q;
  max_detections : Z;
  class_labels : list string;
  net : Frame -> option (list Row)
}.

(** Lines 92-107, for one row that passed the confidence filter. *)
Definition to_detection (self : ObjectDetector) (width height : nat) (r : Row) : Detection :=
  let class_id := row_class r in
  let '(x1, y1, x2, y2) := row_box r in
  let w := inject_Z (Z.of_nat width) in
  let h := inject_Z (Z.of_nat height) in
  {| class_name :=
       if (0 <=? class_id)%Z && (class_id <? Z.of_nat (length (class_labels self)))%Z
       then nth (Z.to_nat class_id) (class_labels self) ""
       else "Classe-" +:+ pretty class_id;
     confidence := row_confidence r;
     box := (py_int (x1 * w), py_int (y1 * h), py_int (x2 * w), py_int (y2 * h)) |}.

(** The [for] loop of lines 87-107. *)
Fixpoint collect (self : ObjectDetector) (width height : nat) (rows : list Row)
    : list Detection :=
  match rows with
  | [] => []
  | r :: rest =>
      if Qgtb (row_confidence r) (confidence_threshold self)
      then to_detection self width height r :: collect self width height rest
      else collect self width height rest
  end.

(** [results.sort(key=lambda x: x[1], reverse=True)]: a stable sort, highest
    confidence first; elements of equal confidence keep their order. *)
Fixpoint insert_desc (d : Detection) (sorted : list Detection) : list Detection :=
  match sorted with
  | [] => [d]
  | e :: rest =>
      if Qgtb (confidence e) (confidence d) then e :: insert_desc d rest
      else d :: sorted
  end.

Definition sort_desc (results : list Detection) : list Detection :=
  foldr insert_desc [] results.

(** The slice [l[:n]] for a Python integer [n]. *)
Definition slice_to {A} (n : Z) (l : list A) : list A :=
  if (0 <=? n)%Z then take (Z.to_nat n) l
  else take (length l - Z.to_nat (- n)) l.

(** [ObjectDetector.detect_objects]; the argument is [None] or an array. *)
Definition detect_objects (self : ObjectDetector) (frame : option Frame) : list Detection :=
  match frame with
  | None => []
  | Some frame =>
      if (size frame =? 0)%nat then []
      else
        (* try: *)
        match shape frame with
        | height :: width :: _ =>
            match net self frame with
            | Some rows =>
                let results := collect self width height rows in
                let results := sort_desc results in
                slice_to (max_detections self) results
            | None => []          (* except Exception: return [] *)
            end
        | _ => []                 (* unpacking frame.shape[:2] raises *)
        end
  end.

(** "Highest confidence first": [a] may stand before [b]. *)
Definition confidence_desc (a b : Detection) : Prop := confidence b <= confidence a.

(** A detector whose network answers three rows, as in [test_detect_objects],
    and one whose network fails. *)
Definition sample_rows : list Row :=
  [ {| row_class := 1; row_confidence := 7 # 10; row_box := (1 # 10, 1 # 10, 5 # 10, 5 # 10) |};
    {| row_class := 2; row_confidence := 8 # 10; row_box := (2 # 10, 2 # 10, 6 # 10, 6 # 10) |};
    {| row_class := 7; row_confidence := 5 # 10; row_box := (3 # 10, 3 # 10, 7 # 10, 7 # 10) |} ].

Definition sample_detector : ObjectDetector :=
  {| confidence_threshold := 6 # 10; max_detections := 3;
     class_labels := ["personne"; "voiture"; "chaise"];
     net := fun _ => Some sample_rows |}.

Definition failing_detector : ObjectDetector :=
  {| confidence_threshold := 6 # 10; max_detections := 3;
     class_labels := ["personne"; "voiture"; "chaise"];
     net := fun _ => None |}.

Definition sample_frame : Frame := {| shape := [300; 300; 3]%nat |}.

End object_detector.

(** ** The Python library functions the transports call *)

(** What [json.loads(data.decode('utf-8'))] does with a received frame. *)
Inductive decoded :=
  | RaisesUnicodeDecodeError
  | RaisesJSONDecodeError
  | Loaded (message : json).

Record Python := {
  json_loads : string -> decoded;
  (** [json.dumps(data).encode('utf-8')] *)
  json_dumps : json -> string;
  (** how an f-string renders a value that is not a [str] *)
  format : json -> string
}.

(** A registered command handler, called with [params]; it may change the
    application [W] it is bound to, and [None] stands for a raised exception. *)
Abbreviation handler W := (json -> W -> option json * W)%type (only parsing).

(** The error responses of both transports. *)
Definition unknown_command (py : Python) (command : json) : json :=
  JDict [("status", JStr "error");
         ("message", JStr ("Commande '" +:+
                           match command with JStr s => s | v => format py v end
                           +:+ "' non reconnue"))].

Definition invalid_format : json :=
  JDict [("status", JStr "error"); ("message", JStr "Format de données invalide")].


(** A stand-in runtime for the concrete cases below.  Its [json_loads] agrees
    with Python's on the three frames it tells apart; the properties
    themselves hold for every runtime. *)
Definition sample_py : Python :=
  {| json_loads := fun data =>
       if String.eqb data "{}" then Loaded (JDict [])
       else if String.eqb data "[1]" then Loaded (JList [JInt 1])
       else RaisesJSONDecodeError;
     json_dumps := fun _ => "<json>";
     format := fun _ => "<value>" |}.

(** ** [connectivity/bluetooth.py] *)
Module bluetooth.

(** An entry of [self.clients]; the socket is a handle. *)
Record Client := {
  socket : nat;
  info : string * Z;
  thread : option nat
}.

Record BluetoothManager (W : Type) := {
  device_name : string;
  is_running : bool;
  clients : gmap string Client;
  data_callback : option (json -> W -> W);
  command_handlers : gmap string (handler W)
}.
Arguments device_name {W}.
Arguments is_running {W}.
Arguments clients {W}.
Arguments data_callback {W}.
Arguments command_handlers {W}.

(** What happens on the sockets, plus the handler calls. *)
Inductive event :=
  | Sent (sock : nat) (payload : string)   (* sock.send(payload) returned *)
  | SendFailed (sock : nat)                (* sock.send(payload) raised *)
  | Closed (sock : nat)                    (* sock.close() *)
  | Called (command : string).             (* self.command_handlers[command](params) *)


(** [send_to_client]; [send_ok sock] tells whether a write on [sock]
    succeeds. *)
Definition send_to_client {W} (py : Python) (send_ok : nat -> bool)
    (self : BluetoothManager W) (client_id : string) (data : json)
    : bool * list event :=
  match clients self !! client_id with
  | None => (false, [])
  | Some c =>
      if send_ok (socket c) then (true, [Sent (socket c) (json_dumps py data)])
      else (false, [SendFailed (socket c)])
  end.

Definition run_callback {W} (self : BluetoothManager W) (message : json) (w : W) : W :=
  match data_callback self with
  | Some callback => callback message w
  | None => w
  end.

(** [_process_received_data]. *)
Definition _process_received_data {W} (py : Python) (send_ok : nat -> bool)
    (self : BluetoothManager W) (client_id : string) (data : string) (w : W)
    : W * list event :=
  match json_loads py data with
  | Loaded (JDict items) =>
      let message := JDict items in
      let command := dict_get_default "command" (JStr "") items in
      let params := dict_get_default "params" (JDict []) items in
      match command with
      | JList _ | JDict _ => (w, [])      (* unhashable: TypeError, logged *)
      | _ =>
          match match command with
                | JStr name => option_map (pair name) (command_handlers self !! name)
                | _ => None
                end with
          | Some (name, h) =>
              match h params w with
              | (Some response, w') =>
                  (run_callback self message w',
                   Called name :: (send_to_client py send_ok self client_id response).2)
              | (None, w') => (w', [Called name])   (* except Exception: logged *)
              end
          | None =>
              (run_callback self message w,
               (send_to_client py send_ok self client_id (unknown_command py command)).2)
          end
      end
  | Loaded _ => (w, [])                   (* message.get: AttributeError, logged *)
  | RaisesJSONDecodeError =>
      (w, (send_to_client py send_ok self client_id invalid_format).2)
  | RaisesUnicodeDecodeError => (w, [])   (* except Exception: logged *)
  end.

(** The first loop of [broadcast]: one write per client, failures noted. *)
Fixpoint send_each (send_ok : nat -> bool) (encoded_data : string)
    (items : list (string * Client)) : list string * list event :=
  match items with
  | [] => ([], [])
  | (client_id, client_info) :: rest =>
      let (disconnected, evs) := send_each send_ok encoded_data rest in
      if send_ok (socket client_info)
      then (disconnected, Sent (socket client_info) encoded_data :: evs)
      else (client_id :: disconnected, SendFailed (socket client_info) :: evs)
  end.

(** The second loop of [broadcast]: close and delete the noted clients. *)
Fixpoint purge (disconnected : list string) (table : gmap string Client)
    : gmap string Client * list event :=
  match disconnected with
  | [] => (table, [])
  | client_id :: rest =>
      match table !! client_id with
      | Some c =>
          let (table', evs) := purge rest (delete client_id table) in
          (table', Closed (socket c) :: evs)
      | None => purge rest table
      end
  end.

(** [broadcast].  The table is visited in the order of [map_to_list]. *)
Definition broadcast {W} (py : Python) (send_ok : nat -> bool)
    (self : BluetoothManager W) (data : json) : BluetoothManager W * list event :=
  if decide (clients self = ∅) then (self, [])
  else
    let encoded_data := json_dumps py data in
    let (disconnected, sends) :=
      send_each send_ok encoded_data (map_to_list (clients self)) in
    let (table, closes) := purge disconnected (clients self) in
    ({| device_name := device_name self; is_running := is_running self;
        clients := table; data_callback := data_callback self;
        command_handlers := command_handlers self |},
     sends ++ closes).

(** The event of the write to one client in the first loop of [broadcast]. *)
Definition write_event (send_ok : nat -> bool) (payload : string)
    (item : string * Client) : event :=
  if send_ok (socket item.2) then Sent (socket item.2) payload
  else SendFailed (socket item.2).

(** Events of the first loop, and of the second. *)
Definition is_write (e : event) : Prop :=
  match e with Sent _ _ | SendFailed _ => True | _ => False end.

Definition is_close (e : event) : Prop :=
  match e with Closed _ => True | _ => False end.

(** Three clients, the second one unreachable. *)
Definition three_clients : gmap string Client :=
  <["AA:01:1" := {| socket := 1; info := ("AA:01", 1%Z); thread := Some 1%nat |}]>
    (<["BB:02:1" := {| socket := 2; info := ("BB:02", 1%Z); thread := Some 2%nat |}]>
      (<["CC:03:1" := {| socket := 3; info := ("CC:03", 1%Z); thread := Some 3%nat |}]> ∅)).

Definition second_fails (sock : nat) : bool := negb (sock =? 2)%nat.

End bluetooth.

(** ** [connectivity/usb.py] *)
Module usb.

Record USBManager (W : Type) := {
  device : option string;
  baud_rate : Z;
  is_running : bool;
  serial_conn : option nat;
  data_callback : option (json -> W -> W);
  command_handlers : gmap string (handler W)
}.
Arguments device {W}.
Arguments baud_rate {W}.
Arguments is_running {W}.
Arguments serial_conn {W}.
Arguments data_callback {W}.
Arguments command_handlers {W}.

Inductive event :=
  | Written (line : string)      (* serial_conn.write(...); flush() returned *)
  | WriteFailed                  (* the write raised *)
  | Called (command : string).   (* self.command_handlers[command](params) *)

(** [send]; [write_ok] tells whether the serial write succeeds. *)
Definition send {W} (py : Python) (write_ok : bool) (self : USBManager W)
    (data : json) : bool * list event :=
  match serial_conn self with
  | Some _ =>
      if is_running self then
        if write_ok then (true, [Written (json_dumps py data +:+ String (Ascii.ascii_of_nat 10) "")])
        else (false, [WriteFailed])
      else (false, [])
  | None => (false, [])
  end.

Definition run_callback {W} (self : USBManager W) (message : json) (w : W) : W :=
  match data_callback self with
  | Some callback => callback message w
  | None => w
  end.

(** [_process_received_data]. *)
Definition _process_received_data {W} (py : Python) (write_ok : bool)
    (self : USBManager W) (data : string) (w : W) : W * list event :=
  match json_loads py data with
  | Loaded (JDict items) =>
      let message := JDict items in
      let command := dict_get_default "command" (JStr "") items in
      let params := dict_get_default "params" (JDict []) items in
      match command with
      | JList _ | JDict _ => (w, [])      (* unhashable: TypeError, logged *)
      | _ =>
          match match command with
                | JStr name => option_map (pair name) (command_handlers self !! name)
                | _ => None
                end with
          | Some (name, h) =>
              match h params w with
              | (Some response, w') =>
                  (run_callback self message w',
                   Called name :: (send py write_ok self response).2)
              | (None, w') => (w', [Called name])   (* except Exception: logged *)
              end
          | None =>
              (run_callback self message w,
               (send py write_ok self (unknown_command py command)).2)
          end
      end
  | Loaded _ => (w, [])                   (* message.get: AttributeError, logged *)
  | RaisesJSONDecodeError => (w, [])      (* except json.JSONDecodeError: logged *)
  | RaisesUnicodeDecodeError => (w, [])   (* except Exception: logged *)
  end.

End usb.

(** ** [main.py]: the ranging loop *)
Module main.

Import config.

(** The two alert branches of the loop. *)
Inductive AlertLevel := Danger | Warning.

(** What one pass of the loop does to the outside world. *)
Inductive action :=
  | BroadcastDistance (distance : Q)            (* self._broadcast_distance(distance) *)
  | Alert (level : AlertLevel) (distance : Q)   (* the branch's logger.info line *)
  | Speak (text : string) (priority : bool)     (* self.audio.speak(...) *)
  | VibrateDanger                               (* self.haptic.vibrate_danger() *)
  | VibrateWarning                              (* self.haptic.vibrate_warning() *)
  | Sleep (seconds : Q).                        (* time.sleep(...) *)

(** The three locals the loop carries from one pass to the next. *)
Record LoopState := {
  last_distance : option Q;
  last_alert_time : Q;
  last_broadcast_time : Q
}.

(** Their values before the first pass. *)
Definition initial : LoopState :=
  {| last_distance := None; last_alert_time := 0; last_broadcast_time := 0 |}.

(** Which optional actuators [init_modules] created. *)
Record Actuators := { audio : bool; haptic : bool }.

(** Lines 312-314, the condition guarding both alert branches. *)
Definition alert_due (st : LoopState) (distance current_time : Q) : bool :=
  match last_distance st with
  | None => true
  | Some last => Qgtb (Qabs (distance - last)) 10
  end
  || Qgtb (current_time - last_alert_time st) 3.

Definition speak_if (app : Actuators) (text : string) (priority : bool) : list action :=
  if audio app then [Speak text priority] else [].

Definition vibrate_if (app : Actuators) (a : action) : list action :=
  if haptic app then [a] else [].

(** One pass of the [while] loop of [obstacle_detection_loop]; [distance] is
    the result of [measure_distance] and [current_time] the reading of
    [time.time()] taken after a successful measure. *)
Definition iteration (cfg : ULTRASONIC_CONFIG_t) (app : Actuators)
    (st : LoopState) (distance : option Q) (current_time : Q)
    : LoopState * list action :=
  match distance with
  | None => (st, [Sleep (1 # 10)])
  | Some distance =>
      let '(last_broadcast_time', broadcast) :=
        if Qgtb (current_time - last_broadcast_time st) 1
        then (current_time, [BroadcastDistance distance])
        else (last_broadcast_time st, []) in
      let '(last_alert_time', alert) :=
        if alert_due st distance current_time then
          if Qltb distance (DANGER_DISTANCE cfg) then
            (current_time,
             Alert Danger distance
             :: speak_if app ("Attention! Obstacle à " +:+ pretty (py_int distance)
                              +:+ " centimètres") true
             ++ vibrate_if app VibrateDanger)
          else if Qltb distance (WARNING_DISTANCE cfg) then
            (current_time,
             Alert Warning distance
             :: speak_if app ("Obstacle à " +:+ pretty (py_int distance)
                              +:+ " centimètres") false
             ++ vibrate_if app VibrateWarning)
          else (last_alert_time st, [])
        else (last_alert_time st, []) in
      ({| last_distance := Some distance;
          last_alert_time := last_alert_time';
          last_broadcast_time := last_broadcast_time' |},
       broadcast ++ alert ++ [Sleep (MEASURE_INTERVAL cfg)])
  end.

(** The alert levels raised by a list of actions, in order. *)
Fixpoint alerts (acts : list action) : list AlertLevel :=
  match acts with
  | [] => []
  | Alert level _ :: rest => level :: alerts rest
  | _ :: rest => alerts rest
  end.

(** Running the loop over a sequence of measures and clock readings. *)
Fixpoint run (cfg : ULTRASONIC_CONFIG_t) (app : Actuators) (st : LoopState)
    (samples : list (option Q * Q)) : LoopState * list action :=
  match samples with
  | [] => (st, [])
  | (distance, current_time) :: rest =>
      let (st1, acts1) := iteration cfg app st distance current_time in
      let (st2, acts2) := run cfg app st1 rest in
      (st2, acts1 ++ acts2)
  end.

(** The attributes of [CanneApp] that the status handler reads; [camera] and
    [object_detector] record whether the attribute is not [None]. *)
Record CanneApp := {
  running : bool;
  camera : bool;
  object_detector : bool;
  ultrasonic : ultrasonic.UltrasonicSensor;
  actuators : Actuators
}.

(** [_handle_bt_get_status]; [now] is the reading of [time.time()]. *)
Definition _handle_bt_get_status (self : CanneApp) (params : json) (now : Q) : json :=
  JDict [("status", JStr "success");
         ("data", JDict [
            ("system_running", JBool (running self));
            ("camera_enabled", JBool (camera self));
            ("detection_enabled", JBool (object_detector self));
            ("last_distance",
             getattr (ultrasonic.instance_dict (ultrasonic self)) "last_distance" JNull);
            ("battery_level", JInt 85);
            ("timestamp", JFloat now)])].

(** [_handle_usb_get_status] reuses the Bluetooth handler. *)
Definition _handle_usb_get_status (self : CanneApp) (params : json) (now : Q) : json :=
  _handle_bt_get_status self params now.

(** The [data] member of a response, then one of its fields. *)
Definition response_field (response : json) (field : string) : option json :=
  match response with
  | JDict items =>
      match dict_get "data" items with
      | Some (JDict data) => dict_get field data
      | _ => None
      end
  | _ => None
  end.

(** [_handle_bt_data] and [_handle_usb_data]: a debug log line, nothing else. *)
Definition _handle_bt_data {W} (data : json) (w : W) : W := w.
Definition _handle_usb_data {W} (data : json) (w : W) : W := w.

(** A Bluetooth manager with the clients of [three_clients] and a USB manager
    with an open port, both with the callbacks [CanneApp] installs and the
    [get_status] handler registered. *)
Definition status_handler (now : Q) : handler CanneApp :=
  fun params app => (Some (_handle_bt_get_status app params now), app).

Definition sample_bluetooth : bluetooth.BluetoothManager CanneApp :=
  {| bluetooth.device_name := "Canne-Smart";
     bluetooth.is_running := true;
     bluetooth.clients := bluetooth.three_clients;
     bluetooth.data_callback := Some _handle_bt_data;
     bluetooth.command_handlers := {["get_status" := status_handler 0]} |}.

Definition sample_usb : usb.USBManager CanneApp :=
  {| usb.device := None;
     usb.baud_rate := 115200;
     usb.is_running := true;
     usb.serial_conn := Some 0%nat;
     usb.data_callback := Some _handle_usb_data;
     usb.command_handlers := {["get_status" := status_handler 0]} |}.

Definition sample_app : CanneApp :=
  {| running := true; camera := true; object_detector := true;
     ultrasonic := ultrasonic.new 23 24 (Some (MAX_DISTANCE ULTRASONIC_CONFIG));
     actuators := {| audio := true; haptic := true |} |}.

End main.

(** ** More on [sensors/ultrasonic.py]: clocks *)
Module ranging.

Import ultrasonic.

(** A clock that never runs backwards. *)
Definition monotone (hw : Hardware) : Prop :=
  forall i, clock hw i <= clock hw (S i).

(** A clock on which any [2 * n + 2] successive readings span more than the
    100 ms budget. *)
Definition paces (hw : Hardware) (n : nat) : Prop :=
  forall i, TIMEOUT < clock hw (i + (2 * n + 2)) - clock hw i.

(** A clock that advances by [step] at every reading, with a given echo line. *)
Definition ticking (step : Q) (line : nat -> bool) : Hardware :=
  {| clock := fun i => inject_Z (Z.of_nat i) * step; echo := line |}.

End ranging.

(** ** More on [main.py]: sequences of samples *)
Module ranging_loop.

Import config main.

(** A measured distance with the clock reading taken after it, as one input
    of the loop. *)
Definition valid (s : Q * Q) : option Q * Q := (Some s.1, s.2).

(** Every sample is within 10 cm of the one before it, starting from [prev]. *)
Fixpoint chained (prev : Q) (samples : list (Q * Q)) : Prop :=
  match samples with
  | [] => True
  | s :: rest => Qabs (s.1 - prev) <= 10 /\ chained s.1 rest
  end.

Definition near_static (samples : list (Q * Q)) : Prop :=
  match samples with
  | [] => True
  | s :: rest => chained s.1 rest
  end.

(** No sample arrives more than 3 s after an earlier one. *)
Fixpoint within_window (samples : list (Q * Q)) : Prop :=
  match samples with
  | [] => True
  | s :: rest => Forall (fun s' => s'.2 - s.2 <= 3) rest /\ within_window rest
  end.

(** Every sample arrives more than 1 s after the one before it, starting
    from [prev]. *)
Fixpoint spaced (prev : Q) (samples : list (Q * Q)) : Prop :=
  match samples with
  | [] => True
  | s :: rest => 1 < s.2 - prev /\ spaced s.2 rest
  end.

(** The distances broadcast by a list of actions, in order. *)
Fixpoint broadcasts (acts : list action) : list Q :=
  match acts with
  | [] => []
  | BroadcastDistance d :: rest => d :: broadcasts rest
  | _ :: rest => broadcasts rest
  end.

(** Everything but the pauses. *)
Definition is_sleep (a : action) : bool :=
  match a with Sleep _ => true | _ => false end.

Definition effects (acts : list action) : list action :=
  List.filter (fun a => negb (is_sleep a)) acts.

(** Whether a measure succeeded. *)
Definition measured (s : option Q * Q) : bool :=
  match s.1 with Some _ => true | None => false end.

End ranging_loop.

(** ** More on [detection/object_detector.py]: the spoken summary *)
Module summary.

Import object_detector.

(** [class_counts[name] = class_counts.get(name, 0) + 1] on a dict that keeps
    its keys in insertion order. *)
Fixpoint bump (counts : list (string * nat)) (name : string) : list (string * nat) :=
  match counts with
  | [] => [(name, 1%nat)]
  | (k, n) :: rest =>
      if String.eqb k name then (k, S n) :: rest else (k, n) :: bump rest name
  end.

(** The first loop of [get_detection_summary]. *)
Definition class_counts (detections : list Detection) : list (string * nat) :=
  fold_left (fun counts d => bump counts (class_name d)) detections [].

(** One element of [summary_parts]. *)
Definition summary_part (item : string * nat) : string :=
  if (item.2 =? 1)%nat then "un " +:+ item.1
  else pretty item.2 +:+ " " +:+ item.1 +:+ "s".

(** [sep.join(parts)]. *)
Fixpoint join (sep : string) (parts : list string) : string :=
  match parts with
  | [] => ""
  | [p] => p
  | p :: rest => p +:+ sep +:+ join sep rest
  end.

(** [ObjectDetector.get_detection_summary].  In the second branch
    [summary_parts] has one part per class found, so it is not empty. *)
Definition get_detection_summary (detections : list Detection) : string :=
  match detections with
  | [] => "Aucun objet détecté."
  | _ :: _ =>
      let summary_parts := map summary_part (class_counts detections) in
      match summary_parts with
      | [p] => "Détecté: " +:+ p +:+ "."
      | [p1; p2] => "Détecté: " +:+ p1 +:+ " et " +:+ p2 +:+ "."
      | _ =>
          let last_part := List.last summary_parts "" in
          "Détecté: " +:+ join ", " (removelast summary_parts)
          +:+ " et " +:+ last_part +:+ "."
      end
  end.

(** [counts.get(name, 0)]. *)
Fixpoint tally (counts : list (string * nat)) (name : string) : nat :=
  match counts with
  | [] => 0%nat
  | (k, n) :: rest => if String.eqb k name then n else tally rest name
  end.

(** How many detections carry a class name. *)
Definition occurrences (detections : list Detection) (name : string) : nat :=
  length (List.filter (fun d => String.eqb (class_name d) name) detections).

Definition mk (name : string) (c : Q) : Detection :=
  {| class_name := name; confidence := c; box := (0, 0, 0, 0)%Z |}.

End summary.

(** ** More on [main.py]: command handlers and the detection loop *)
Module commands.

Import main object_detector.

Definition success (data : list (string * json)) : json :=
  JDict [("status", JStr "success"); ("data", JDict data)].

Definition failure (message : string) : json :=
  JDict [("status", JStr "error"); ("message", JStr message)].

(** [_handle_bt_get_distance]: a new measure on every call.  The sensor is an
    object without [__bool__] or [__len__], so the test [if self.ultrasonic]
    holds and the [else] branch is never taken. *)
Definition _handle_bt_get_distance (fuel : nat) (hw : ultrasonic.Hardware)
    (self : CanneApp) (params : json) (now : Q) : ultrasonic.outcome json :=
  match ultrasonic.measure_distance fuel hw (ultrasonic self) ultrasonic.start with
  | ultrasonic.OutOfFuel => ultrasonic.OutOfFuel
  | ultrasonic.Return distance c =>
      ultrasonic.Return
        (success [("distance", match distance with
                               | Some d => JFloat d
                               | None => JNull
                               end);
                  ("unit", JStr "cm");
                  ("timestamp", JFloat now)]) c
  end.

(** The target list [obj, _] of the comprehensions of [_handle_bt_get_objects]
    and [_broadcast_objects] has two names; an element of [detections] is a
    tuple of three, so binding it raises [ValueError]. *)
Definition unpack_two (d : Detection) : option (string * Q) := None.

(** [[obj for obj, _ in detections]] and [[score for _, score in detections]];
    [None] is the exception. *)
Definition objects_of (detections : list Detection) : option (list string) :=
  map fst <$> mapM unpack_two detections.

Definition scores_of (detections : list Detection) : option (list Q) :=
  map snd <$> mapM unpack_two detections.

Definition objects_data (objects : list string) (confidence : list Q) (now : Q)
    : list (string * json) :=
  [("objects", JList (map JStr objects));
   ("confidence", JList (map JFloat confidence));
   ("timestamp", JFloat now)].

(** [_handle_bt_get_objects].  [camera] is [None] when [self.camera] is, and
    otherwise holds what [get_frame()] returns; [None] as a result is an
    exception leaving the handler. *)
Definition _handle_bt_get_objects (camera : option (option Frame))
    (detector : option ObjectDetector) (params : json) (now : Q) : option json :=
  match camera, detector with
  | Some frame, Some detector =>
      match frame with
      | Some frame =>
          let detections := detect_objects detector (Some frame) in
          objects ← objects_of detections;
          confidence ← scores_of detections;
          Some (success (objects_data objects confidence now))
      | None => Some (failure "Impossible de capturer une image")
      end
  | _, _ => Some (failure "Caméra ou détecteur d'objets non disponible")
  end.

(** The payload [_broadcast_objects] builds before it reaches the transports. *)
Definition _broadcast_objects (detections : list Detection) (now : Q) : option json :=
  objects ← objects_of detections;
  confidence ← scores_of detections;
  Some (JDict [("type", JStr "objects_update");
               ("data", JDict (objects_data objects confidence now))]).

(** What one pass of [object_detection_loop] does. *)
Inductive act :=
  | Say (text : string)            (* self.audio.speak(summary) *)
  | VibrateInfo                    (* self.haptic.vibrate_info() *)
  | BroadcastObjects (payload : json)
  | Pause (seconds : Q).           (* time.sleep(...) *)

(** The loop goes on with a new [last_detection_time], or an exception
    reaches the [except] around it and the loop is over. *)
Inductive pass :=
  | GoesOn (last_detection_time : Q) (acts : list act)
  | Ends (acts : list act).

(** One pass of the [while] loop of [object_detection_loop]; [stamp] is the
    reading of [time.time()] inside [_broadcast_objects]. *)
Definition detection_pass (capture_interval : Q) (app : Actuators)
    (frame : option Frame) (detector : ObjectDetector)
    (last_detection_time current_time stamp : Q) : pass :=
  if Qltb (current_time - last_detection_time) capture_interval then
    GoesOn last_detection_time [Pause (1 # 10)]
  else
    match frame with
    | None => GoesOn last_detection_time [Pause 1]
    | Some frame =>
        let detections := detect_objects detector (Some frame) in
        let last_detection_time := current_time in
        match detections with
        | [] => GoesOn last_detection_time [Pause 1]
        | _ :: _ =>
            let summary := summary.get_detection_summary detections in
            let spoken := if audio app then [Say summary] else [] in
            let felt := if haptic app then [VibrateInfo] else [] in
            match _broadcast_objects detections stamp with
            | Some payload =>
                GoesOn last_detection_time
                  (spoken ++ felt ++ [BroadcastObjects payload; Pause 1])
            | None => Ends (spoken ++ felt)
            end
        end
    end.

Definition acts_of (p : pass) : list act :=
  match p with GoesOn _ acts => acts | Ends acts => acts end.

Definition is_broadcast (a : act) : Prop :=
  match a with BroadcastObjects _ => True | _ => False end.

End commands.

(** ** [feedback/audio.py]: the speech queue *)
Module audio.

(** The two attributes the queue logic uses, and two ghost fields: the number
    of live [_speak_worker] threads, and the texts handed so far to
    [_generate_and_play_speech], in order. *)
Record AudioFeedback := {
  speaking : bool;
  speech_queue : list string;
  workers : nat;
  played : list string
}.

(** After [__init__]. *)
Definition new : AudioFeedback :=
  {| speaking := false; speech_queue := []; workers := 0; played := [] |}.

(** [speak]: an empty text is ignored; the rest runs under [queue_lock]. *)
Definition speak (self : AudioFeedback) (text : string) (priority : bool)
    : AudioFeedback :=
  match text with
  | EmptyString => self
  | _ =>
      let queue := if priority then text :: speech_queue self
                   else speech_queue self ++ [text] in
      if speaking self then
        {| speaking := true; speech_queue := queue;
           workers := workers self; played := played self |}
      else
        (* self.speaking = True; Thread(target=self._speak_worker).start() *)
        {| speaking := true; speech_queue := queue;
           workers := S (workers self); played := played self |}
  end.

(** One round of the [while True] loop of [_speak_worker], taken by a live
    worker thread: under the lock it leaves on an empty queue or pops the
    head, which it then plays. *)
Definition worker_turn (self : AudioFeedback) : AudioFeedback :=
  match workers self with
  | O => self
  | S others =>
      match speech_queue self with
      | [] =>
          {| speaking := false; speech_queue := [];
             workers := others; played := played self |}
      | text :: rest =>
          {| speaking := speaking self; speech_queue := rest;
             workers := workers self; played := played self ++ [text] |}
      end
  end.

(** [stop_all]: the queue is emptied. *)
Definition stop_all (self : AudioFeedback) : AudioFeedback :=
  {| speaking := speaking self; speech_queue := [];
     workers := workers self; played := played self |}.

(** The steps that [queue_lock] makes atomic, in any order. *)
Inductive op :=
  | Speak (text : string) (priority : bool)
  | WorkerTurn
  | StopAll.

Definition step (self : AudioFeedback) (o : op) : AudioFeedback :=
  match o with
  | Speak text priority => speak self text priority
  | WorkerTurn => worker_turn self
  | StopAll => stop_all self
  end.

Definition run (self : AudioFeedback) (ops : list op) : AudioFeedback :=
  fold_left step ops self.

(** The worker left alone for [n] rounds, and until it exits. *)
Fixpoint turns (n : nat) (self : AudioFeedback) : AudioFeedback :=
  match n with
  | O => self
  | S n' => turns n' (worker_turn self)
  end.

Definition drain (self : AudioFeedback) : AudioFeedback :=
  turns (S (length (speech_queue self))) self.

(** The non-empty texts passed to [speak], in order. *)
Fixpoint requested (ops : list op) : list string :=
  match ops with
  | [] => []
  | Speak EmptyString _ :: rest => requested rest
  | Speak text _ :: rest => text :: requested rest
  | _ :: rest => requested rest
  end.

Definition is_stop (o : op) : Prop := match o with StopAll => True | _ => False end.

Definition is_urgent (o : op) : Prop :=
  match o with Speak _ true => True | _ => False end.

(** A burst of [speak] calls. *)
Definition burst (self : AudioFeedback) (calls : list (string * bool)) : AudioFeedback :=
  fold_left (fun a call => speak a call.1 call.2) calls self.

(** The non-empty texts of a burst, by priority. *)
Definition texts (priority : bool) (calls : list (string * bool)) : list string :=
  map fst (List.filter (fun call => negb (String.eqb call.1 "")
                                    && Bool.eqb call.2 priority) calls).

(** At most one worker, alive exactly while [speaking] is set, and nothing
    queued without it. *)
Definition tidy (a : AudioFeedback) : Prop :=
  workers a = (if speaking a then 1 else 0)%nat
  /\ (speaking a = false -> speech_queue a = []).

End audio.

(** ** More on [connectivity/usb.py]: framing by newline *)
Module usb_framing.

Import usb.

Definition newline : Ascii.ascii := Ascii.ascii_of_nat 10.

(** [b"\n" in buffer]. *)
Fixpoint has_newline (s : string) : bool :=
  match s with
  | EmptyString => false
  | String c rest => Ascii.eqb c newline || has_newline rest
  end.

(** [buffer.split(b"\n")]: never the empty list. *)
Fixpoint split_nl (s : string) : list string :=
  match s with
  | EmptyString => [EmptyString]
  | String c rest =>
      if Ascii.eqb c newline then EmptyString :: split_nl rest
      else match split_nl rest with
           | piece :: pieces => String c piece :: pieces
           | [] => [String c EmptyString]
           end
  end.

(** The bytes [bytes.strip()] removes: space and the controls 9 to 13. *)
Definition is_space (c : Ascii.ascii) : bool :=
  let n := Ascii.nat_of_ascii c in
  (n =? 32)%nat || ((9 <=? n)%nat && (n <=? 13)%nat).

(** [not line.strip()]. *)
Fixpoint blank (line : string) : bool :=
  match line with
  | EmptyString => true
  | String c rest => is_space c && blank rest
  end.

(** The [for line in lines[:-1]] loop of [_read_loop]. *)
Fixpoint dispatch {W} (py : Python) (write_ok : bool) (self : USBManager W)
    (lines : list string) (w : W) : W * list event :=
  match lines with
  | [] => (w, [])
  | line :: rest =>
      if blank line then dispatch py write_ok self rest w
      else
        let (w1, evs1) := _process_received_data py write_ok self line w in
        let (w2, evs2) := dispatch py write_ok self rest w1 in
        (w2, evs1 ++ evs2)
  end.

(** One round of [_read_loop] in which [data] was waiting on the port: the
    new buffer, then the application and the events. *)
Definition read_round {W} (py : Python) (write_ok : bool) (self : USBManager W)
    (buffer data : string) (w : W) : string * (W * list event) :=
  let buffer := buffer +:+ data in
  if has_newline buffer then
    let lines := split_nl buffer in
    (List.last lines "", dispatch py write_ok self (removelast lines) w)
  else (buffer, (w, [])).

(** Two rounds in a row. *)
Definition read_rounds2 {W} (py : Python) (write_ok : bool) (self : USBManager W)
    (buffer data1 data2 : string) (w : W) : string * (W * list event) :=
  let '(buffer1, (w1, evs1)) := read_round py write_ok self buffer data1 w in
  let '(buffer2, (w2, evs2)) := read_round py write_ok self buffer1 data2 w1 in
  (buffer2, (w2, evs1 ++ evs2)).

(** Lines put back together, each with its terminator. *)
Fixpoint terminated (lines : list string) : string :=
  match lines with
  | [] => ""
  | line :: rest => line +:+ String newline (terminated rest)
  end.

End usb_framing.

(** ** More on [connectivity/bluetooth.py]: the life of a connection *)
Module bluetooth_server.

Import bluetooth.

(** [f"{client_info[0]}:{client_info[1]}"]. *)
Definition client_id_of (info : string * Z) : string :=
  info.1 +:+ ":" +:+ pretty info.2.

(** The body of [_connection_handler] after a successful [accept()]: the
    client is entered in the table under its id. *)
Definition accepted {W} (self : BluetoothManager W) (client_sock : nat)
    (client_info : string * Z) (client_thread : nat) : BluetoothManager W :=
  {| device_name := device_name self; is_running := is_running self;
     clients := <[client_id_of client_info :=
                    {| socket := client_sock; info := client_info;
                       thread := Some client_thread |}]> (clients self);
     data_callback := data_callback self;
     command_handlers := command_handlers self |}.

(** What [client_sock.recv(1024)] gives: some bytes (none when the peer has
    closed), or an exception (the 60 s timeout, a socket error). *)
Inductive recv :=
  | Data (bytes : string)
  | Fails.

(** The [while] loop of [_client_handler] over the successive results of
    [recv]; a script that runs out stands for the timeout. *)
Fixpoint serve {W} (py : Python) (send_ok : nat -> bool) (self : BluetoothManager W)
    (client_id : string) (script : list recv) (w : W) : W * list event :=
  match script with
  | [] => (w, [])
  | Fails :: _ => (w, [])
  | Data EmptyString :: _ => (w, [])
  | Data data :: rest =>
      let (w1, evs1) := _process_received_data py send_ok self client_id data w in
      let (w2, evs2) := serve py send_ok self client_id rest w1 in
      (w2, evs1 ++ evs2)
  end.

(** [_client_handler]: the loop, then the [finally] block.  The lookup of the
    socket comes before the [try]; on an unknown id it raises and nothing
    else happens ([None]). *)
Definition _client_handler {W} (py : Python) (send_ok : nat -> bool)
    (self : BluetoothManager W) (client_id : string) (script : list recv) (w : W)
    : option (BluetoothManager W * (W * list event)) :=
  match clients self !! client_id with
  | None => None
  | Some c =>
      let (w', evs) :=
        if is_running self then serve py send_ok self client_id script w
        else (w, []) in
      Some ({| device_name := device_name self; is_running := is_running self;
               clients := delete client_id (clients self);
               data_callback := data_callback self;
               command_handlers := command_handlers self |},
            (w', evs ++ [Closed (socket c)]))
  end.

(** [stop]: every tracked socket is closed and the table emptied. *)
Definition stop {W} (self : BluetoothManager W) : BluetoothManager W * list event :=
  if is_running self then
    ({| device_name := device_name self; is_running := false;
        clients := ∅;
        data_callback := data_callback self;
        command_handlers := command_handlers self |},
     map (fun item : string * Client => Closed (socket item.2))
         (map_to_list (clients self)))
  else (self, []).

(** The frames of a script that the loop handles: those before the first
    empty read or failure. *)
Fixpoint handled (script : list recv) : list string :=
  match script with
  | Data (String c s) :: rest => String c s :: handled rest
  | _ => []
  end.

End bluetooth_server.

(** ** Handlers as the transports see them *)
Module wiring.


End wiring.

(** * Properties *)

(** ** Order tests on rationals *)

Lemma Qgtb_true a b : Qgtb a b = true <-> b < a.
Proof.
  unfold Qgtb. rewrite negb_true_iff.
  destruct (Qle_bool a b) eqn:E.
  - apply Qle_bool_iff in E. split; [discriminate | intros H; exfalso; lra].
  - split; [intros _ | reflexivity].
    apply Qnot_le_lt. intros H. apply Qle_bool_iff in H. congruence.
Qed.

Lemma Qgtb_false a b : Qgtb a b = false <-> a <= b.
Proof.
  destruct (Qgtb a b) eqn:E.
  - apply Qgtb_true in E. split; [discriminate | intros H; exfalso; lra].
  - split; [intros _ | reflexivity].
    apply Qnot_lt_le. intros H. apply Qgtb_true in H. congruence.
Qed.

Lemma Qltb_true a b : Qltb a b = true <-> a < b.
Proof. unfold Qltb. apply (Qgtb_true b a). Qed.

Lemma Qltb_false a b : Qltb a b = false <-> b <= a.
Proof. unfold Qltb. apply (Qgtb_false b a). Qed.


(** Turn the boolean order tests among the hypotheses into propositions. *)
Ltac qorder :=
  repeat match goal with
         | H : Qltb _ _ = true |- _ => apply Qltb_true in H
         | H : Qltb _ _ = false |- _ => apply Qltb_false in H
         | H : Qgtb _ _ = true |- _ => apply Qgtb_true in H
         | H : Qgtb _ _ = false |- _ => apply Qgtb_false in H
         end.

(** [round(x, 2)] on a few values, ties going to the even neighbour. *)
Example py_round2_examples :
  py_round2 (50078 # 100) == 50078 # 100
  /\ py_round2 (125 # 1000) == 12 # 100
  /\ py_round2 (135 # 1000) == 14 # 100
  /\ py_round2 (-(125 # 1000)) == -(12 # 100)
  /\ py_round2 (500777 # 1000) == 50078 # 100.
Proof. repeat split; vm_compute; reflexivity. Qed.

Example py_int_examples : py_int (4999 # 100) = 49%Z /\ py_int (-(5 # 2)) = (-2)%Z.
Proof. split; reflexivity. Qed.

(** ** The alert policy of the ranging loop *)
Module main_facts.

Import config main.

Lemma alerts_app (a b : list action) : alerts (a ++ b) = alerts a ++ alerts b.
Proof.
  induction a as [|x a IH]; [reflexivity|].
  destruct x; simpl; rewrite ?IH; reflexivity.
Qed.

Lemma alerts_speak_if app text priority : alerts (speak_if app text priority) = [].
Proof. unfold speak_if. destruct (audio app); reflexivity. Qed.

Lemma alerts_vibrate_danger app : alerts (vibrate_if app VibrateDanger) = [].
Proof. unfold vibrate_if. destruct (haptic app); reflexivity. Qed.

Lemma alerts_vibrate_warning app : alerts (vibrate_if app VibrateWarning) = [].
Proof. unfold vibrate_if. destruct (haptic app); reflexivity. Qed.

(** The alerts of one pass, in closed form. *)
Lemma alerts_iteration cfg app st d now :
  alerts (iteration cfg app st (Some d) now).2 =
  if alert_due st d now then
    if Qltb d (DANGER_DISTANCE cfg) then [Danger]
    else if Qltb d (WARNING_DISTANCE cfg) then [Warning]
    else []
  else [].
Proof.
  unfold iteration.
  destruct (Qgtb (now - last_broadcast_time st) 1);
    destruct (alert_due st d now);
    destruct (Qltb d (DANGER_DISTANCE cfg));
    destruct (Qltb d (WARNING_DISTANCE cfg));
    cbn [snd]; rewrite ?alerts_app; simpl;
    rewrite ?alerts_app, ?alerts_speak_if, ?alerts_vibrate_danger,
      ?alerts_vibrate_warning; reflexivity.
Qed.

(** The state after one pass over a valid sample. *)
Lemma state_iteration cfg app st d now :
  (iteration cfg app st (Some d) now).1 =
  {| last_distance := Some d;
     last_alert_time :=
       if alert_due st d now
          && (Qltb d (DANGER_DISTANCE cfg) || Qltb d (WARNING_DISTANCE cfg))
       then now else last_alert_time st;
     last_broadcast_time :=
       if Qgtb (now - last_broadcast_time st) 1 then now
       else last_broadcast_time st |}.
Proof.
  unfold iteration.
  destruct (Qgtb (now - last_broadcast_time st) 1);
    destruct (alert_due st d now);
    destruct (Qltb d (DANGER_DISTANCE cfg));
    destruct (Qltb d (WARNING_DISTANCE cfg)); reflexivity.
Qed.

(** C1, as stated, fails on the loop: the first sample (30 cm at t = 100 s)
    raises a danger alert, the second (30 cm again, one second later) is below
    the danger threshold of 50 cm and raises nothing. *)
Lemma C1_unconditional_classification_fails :
  ~ (alerts (iteration ULTRASONIC_CONFIG {| audio := true; haptic := true |}
               (iteration ULTRASONIC_CONFIG {| audio := true; haptic := true |}
                  initial (Some 30) 100).1
               (Some 30) 101).2 = [Danger]
     <-> 30 < DANGER_DISTANCE ULTRASONIC_CONFIG).
Proof.
  intros [_ H].
  assert (Hlt : 30 < DANGER_DISTANCE ULTRASONIC_CONFIG) by reflexivity.
  specialize (H Hlt). vm_compute in H. discriminate H.
Qed.

(** C1 (amended): a valid sample raises a danger alert exactly when the guard
    of lines 312-314 holds and the distance is below the danger threshold, a
    warning alert exactly when the guard holds and the distance lies between
    the two thresholds, and no alert exactly when the guard fails or the
    distance is at or above both thresholds. *)
Theorem C1_classification_under_guard cfg app st d now :
  let raised := alerts (iteration cfg app st (Some d) now).2 in
  (raised = [Danger]
     <-> alert_due st d now = true /\ d < DANGER_DISTANCE cfg) /\
  (raised = [Warning]
     <-> alert_due st d now = true /\
         DANGER_DISTANCE cfg <= d /\ d < WARNING_DISTANCE cfg) /\
  (raised = []
     <-> alert_due st d now = false \/
         (DANGER_DISTANCE cfg <= d /\ WARNING_DISTANCE cfg <= d)).
Proof.
  cbv zeta. rewrite alerts_iteration.
  destruct (alert_due st d now);
    destruct (Qltb d (DANGER_DISTANCE cfg)) eqn:Hd;
    destruct (Qltb d (WARNING_DISTANCE cfg)) eqn:Hw;
    qorder;
    repeat split; intros; try discriminate; try tauto;
    repeat match goal with
           | H : _ /\ _ |- _ => destruct H
           | H : _ \/ _ |- _ => destruct H
           end;
    try discriminate; try lra; auto.
Qed.

(** One pass raises at most one alert. *)
Lemma alerts_iteration_le_1 cfg app st sample now :
  (length (alerts (iteration cfg app st sample now).2) <= 1)%nat.
Proof.
  destruct sample as [d|]; [|simpl; lia].
  rewrite alerts_iteration.
  destruct (alert_due st d now); [|simpl; lia].
  destruct (Qltb d (DANGER_DISTANCE cfg)); [simpl; lia|].
  destruct (Qltb d (WARNING_DISTANCE cfg)); simpl; lia.
Qed.

(** The guard is closed for a sample close to the previous one and soon after
    the last alert. *)
Lemma alert_due_false st last d now :
  last_distance st = Some last ->
  Qabs (d - last) <= 10 ->
  now - last_alert_time st <= 3 ->
  alert_due st d now = false.
Proof.
  intros Hlast Hd Ht. unfold alert_due. rewrite Hlast.
  apply orb_false_iff. split; apply Qgtb_false; assumption.
Qed.

(** C2: of two consecutive valid samples that differ by at most 10 cm, the
    second arriving within 3 s of the last alert, the second raises no alert,
    so the pair raises at most one. *)
Theorem C2_hysteresis_pair cfg app st d1 t1 d2 t2 :
  Qabs (d2 - d1) <= 10 ->
  t2 - last_alert_time (iteration cfg app st (Some d1) t1).1 <= 3 ->
  alerts (iteration cfg app (iteration cfg app st (Some d1) t1).1 (Some d2) t2).2 = []
  /\ (length (alerts (run cfg app st [(Some d1, t1); (Some d2, t2)]).2) <= 1)%nat.
Proof.
  intros Hd Ht.
  assert (Hsecond :
    alerts (iteration cfg app (iteration cfg app st (Some d1) t1).1 (Some d2) t2).2 = []).
  { rewrite alerts_iteration.
    rewrite (alert_due_false _ d1 d2 t2); [reflexivity | | assumption | assumption].
    rewrite state_iteration. reflexivity. }
  split; [exact Hsecond|].
  cbn [run].
  destruct (iteration cfg app st (Some d1) t1) as [st1 acts1] eqn:E1.
  cbn [fst] in Hsecond.
  destruct (iteration cfg app st1 (Some d2) t2) as [st2 acts2] eqn:E2.
  cbn [snd] in *. rewrite app_nil_r, alerts_app, Hsecond, app_nil_r.
  pose proof (alerts_iteration_le_1 cfg app st (Some d1) t1) as Hle.
  rewrite E1 in Hle. exact Hle.
Qed.

(** C2 at a concrete pair: 40 cm at t = 100 s, then 45 cm at t = 101 s. *)
Lemma C2_hysteresis_pair_witness :
  alerts (iteration ULTRASONIC_CONFIG {| audio := true; haptic := true |}
            (iteration ULTRASONIC_CONFIG {| audio := true; haptic := true |}
               initial (Some 40) 100).1 (Some 45) 101).2 = []
  /\ (length (alerts (run ULTRASONIC_CONFIG {| audio := true; haptic := true |}
                        initial [(Some 40%Q, 100%Q); (Some 45%Q, 101%Q)]).2) <= 1)%nat.
Proof.
  apply (C2_hysteresis_pair ULTRASONIC_CONFIG {| audio := true; haptic := true |}
           initial 40 100 45 101).
  - vm_compute. discriminate.
  - vm_compute. discriminate.
Defined.

(** The same with both samples timed against an alert raised before the pair,
    on a clock that does not run backwards. *)
Lemma hysteresis_pair_after_earlier_alert cfg app st d1 t1 d2 t2 :
  Qabs (d2 - d1) <= 10 ->
  last_alert_time st <= t1 -> t1 <= t2 -> t2 - last_alert_time st <= 3 ->
  alerts (iteration cfg app (iteration cfg app st (Some d1) t1).1 (Some d2) t2).2 = [].
Proof.
  intros Hd H1 H12 H2. rewrite alerts_iteration.
  rewrite (alert_due_false _ d1 d2 t2); [reflexivity | | assumption | ].
  - rewrite state_iteration. reflexivity.
  - rewrite state_iteration. cbn [last_alert_time].
    destruct (alert_due st d1 t1
              && (Qltb d1 (DANGER_DISTANCE cfg) || Qltb d1 (WARNING_DISTANCE cfg))); lra.
Qed.

(** C3, as stated, fails: 35 cm one second after an alert at 30 cm raises no
    alert, yet [last_distance] moves from 30 to 35. *)
Lemma C3_suppressed_sample_moves_last_distance :
  ~ (alerts (iteration ULTRASONIC_CONFIG {| audio := true; haptic := true |}
               {| last_distance := Some 30; last_alert_time := 100;
                  last_broadcast_time := 100 |} (Some 35) 101).2 = [] ->
     last_distance
       (iteration ULTRASONIC_CONFIG {| audio := true; haptic := true |}
          {| last_distance := Some 30; last_alert_time := 100;
             last_broadcast_time := 100 |} (Some 35) 101).1 = Some 30
     /\ last_alert_time
          (iteration ULTRASONIC_CONFIG {| audio := true; haptic := true |}
             {| last_distance := Some 30; last_alert_time := 100;
                last_broadcast_time := 100 |} (Some 35) 101).1 = 100).
Proof.
  intros H. destruct H as [H _]; [reflexivity|].
  vm_compute in H. discriminate H.
Qed.

(** C3 (amended): a valid sample always becomes [last_distance];
    [last_alert_time] keeps its value when the pass raises no alert and becomes
    the current time when it raises one; a timeout changes nothing. *)
Theorem C3_state_after_pass cfg app st d now :
  last_distance (iteration cfg app st (Some d) now).1 = Some d
  /\ last_alert_time (iteration cfg app st (Some d) now).1 =
       match alerts (iteration cfg app st (Some d) now).2 with
       | [] => last_alert_time st
       | _ :: _ => now
       end
  /\ (iteration cfg app st None now).1 = st.
Proof.
  rewrite alerts_iteration, state_iteration. cbn [last_distance last_alert_time].
  repeat split.
  destruct (alert_due st d now); [|reflexivity].
  destruct (Qltb d (DANGER_DISTANCE cfg)); [reflexivity|].
  destruct (Qltb d (WARNING_DISTANCE cfg)); reflexivity.
Qed.

(** The caller's side of a timeout: nothing but the 100 ms pause. *)
Lemma iteration_timeout cfg app st now :
  iteration cfg app st None now = (st, [Sleep (1 # 10)]).
Proof. reflexivity. Qed.

End main_facts.

(** ** The ranging state machine *)
Module ultrasonic_facts.

Import ultrasonic.

Lemma eqb_negb_same (level : bool) : Bool.eqb (negb level) level = false.
Proof. destruct level; reflexivity. Qed.

Lemma cursor_eq t t' i i' w :
  t = t' -> i = i' ->
  {| time_calls := t; input_calls := i; trig_writes := w |} =
  {| time_calls := t'; input_calls := i'; trig_writes := w |}.
Proof. intros -> ->. reflexivity. Qed.

(** A polling loop that sees its level [k] times, each time within the
    budget, and then the other level, leaves after [k] rounds with the last
    time it recorded. *)
Lemma poll_while_exit hw level ts k :
  forall fuel pulse c,
    (k < fuel)%nat ->
    (forall i, (i < k)%nat -> echo hw (input_calls c + i) = level) ->
    echo hw (input_calls c + k) = negb level ->
    (forall i, (i < k)%nat ->
       clock hw (time_calls c + 2 * i + 1) - ts <= TIMEOUT) ->
    poll_while fuel hw level ts pulse c =
    Return (Some (match k with
                  | O => pulse
                  | S j => clock hw (time_calls c + 2 * j)
                  end))
           {| time_calls := time_calls c + 2 * k;
              input_calls := input_calls c + S k;
              trig_writes := trig_writes c |}.
Proof.
  induction k as [|k IH]; intros fuel pulse c Hfuel Hlevel Hother Hbudget;
    (destruct fuel as [|fuel]; [lia|]); cbn [poll_while gpio_input].
  - rewrite Nat.add_0_r in Hother. rewrite Hother, eqb_negb_same.
    f_equal. apply cursor_eq; lia.
  - pose proof (Hlevel 0%nat ltac:(lia)) as H0. rewrite Nat.add_0_r in H0.
    rewrite H0, eqb_reflx. cbn [time_time time_calls input_calls trig_writes].
    pose proof (Hbudget 0%nat ltac:(lia)) as Hb0.
    replace (time_calls c + 2 * 0 + 1)%nat with (S (time_calls c)) in Hb0 by lia.
    apply Qgtb_false in Hb0. rewrite Hb0.
    rewrite (IH fuel); cbn [time_calls input_calls trig_writes].
    + f_equal.
      * f_equal. destruct k as [|j]; f_equal; lia.
      * apply cursor_eq; lia.
    + lia.
    + intros i Hi. rewrite <- (Hlevel (S i)) by lia. f_equal. lia.
    + rewrite <- Hother. f_equal. lia.
    + intros i Hi. pose proof (Hbudget (S i) ltac:(lia)) as Hb.
      replace (S (S (time_calls c)) + 2 * i + 1)%nat
        with (time_calls c + 2 * S i + 1)%nat by lia.
      exact Hb.
Qed.

(** A polling loop that keeps seeing its level until the clock has passed the
    budget returns [None]. *)
Lemma poll_while_timeout hw level ts n :
  forall fuel pulse c,
    (n < fuel)%nat ->
    (forall i, (i <= n)%nat -> echo hw (input_calls c + i) = level) ->
    TIMEOUT < clock hw (time_calls c + 2 * n + 1) - ts ->
    exists c', poll_while fuel hw level ts pulse c = Return None c'.
Proof.
  induction n as [|n IH]; intros fuel pulse c Hfuel Hlevel Hlate;
    (destruct fuel as [|fuel]; [lia|]); cbn [poll_while gpio_input];
    pose proof (Hlevel 0%nat ltac:(lia)) as H0; rewrite Nat.add_0_r in H0;
    rewrite H0, eqb_reflx; cbn [time_time time_calls input_calls trig_writes].
  - replace (time_calls c + 2 * 0 + 1)%nat with (S (time_calls c)) in Hlate by lia.
    apply Qgtb_true in Hlate. rewrite Hlate. eauto.
  - destruct (Qgtb (clock hw (S (time_calls c)) - ts) TIMEOUT); [eauto|].
    apply IH; cbn [time_calls input_calls trig_writes].
    + lia.
    + intros i Hi. rewrite <- (Hlevel (S i)) by lia. f_equal. lia.
    + replace (S (S (time_calls c)) + 2 * n + 1)%nat
        with (time_calls c + 2 * S n + 1)%nat by lia.
      exact Hlate.
Qed.

(** The clamp of lines 88-93. *)
Lemma distance_of_pulse_cases self d :
  (py_round2 (d * 17150) <= max_distance self ->
     distance_of_pulse self d = py_round2 (d * 17150))
  /\ (max_distance self < py_round2 (d * 17150) ->
        distance_of_pulse self d = max_distance self)
  /\ distance_of_pulse self d <= max_distance self.
Proof.
  unfold distance_of_pulse.
  destruct (Qgtb (py_round2 (d * 17150)) (max_distance self)) eqn:E; qorder;
    repeat split; intros; try reflexivity; try lra.
Qed.

(** The first loop on a line that rises at read [k]. *)
Lemma first_loop_exit hw k fuel w :
  rises_at hw k -> (k < fuel)%nat ->
  poll_while fuel hw false (clock hw 1) (clock hw 0)
    {| time_calls := 2; input_calls := 0; trig_writes := w |} =
  Return (Some (rise_time hw k))
         {| time_calls := 2 + 2 * k; input_calls := S k; trig_writes := w |}.
Proof.
  intros [Hlow Hhigh] Hfuel.
  rewrite (poll_while_exit hw false (clock hw 1) k);
    cbn [time_calls input_calls trig_writes negb]; try assumption.
  - unfold rise_time. destruct k as [|j]; repeat f_equal; lia.
  - intros i Hi. apply (Hlow i Hi).
  - intros i Hi. replace (2 + 2 * i + 1)%nat with (2 * i + 3)%nat by lia.
    apply (Hlow i Hi).
Qed.





(** The pulse of [test_measure_distance_normal]: 0.00292 s, hence 50.08 cm
    (1252/25). *)
Example measure_distance_normal :
  exists c, measure_distance 2 normal_hw (new 23 24 (Some 200)) start
            = Return (Some (1252 # 25)) c.
Proof. eexists. vm_compute. reflexivity. Qed.

(** A line that never rises within the budget: the first loop gives up. *)
Lemma measure_distance_never_rises hw self n fuel :
  never_rises hw n -> (n < fuel)%nat ->
  exists c, measure_distance fuel hw self start = Return None c.
Proof.
  intros [Hlow Hlate] Hfuel.
  unfold measure_distance, start.
  cbn [gpio_output time_time time_calls input_calls trig_writes app].
  destruct (poll_while_timeout hw false (clock hw 1) n fuel (clock hw 0)
              {| time_calls := 2; input_calls := 0;
                 trig_writes := [false; true; false] |}) as [c Hc];
    cbn [time_calls input_calls trig_writes].
  - exact Hfuel.
  - intros i Hi. apply (Hlow i Hi).
  - replace (2 + 2 * n + 1)%nat with (2 * n + 3)%nat by lia. exact Hlate.
  - rewrite Hc. eauto.
Qed.

(** A line that rises and then never falls within the budget: the second
    loop gives up. *)
Lemma measure_distance_never_falls hw self k n fuel :
  never_falls hw k n -> (k < fuel)%nat -> (n < fuel)%nat ->
  exists c, measure_distance fuel hw self start = Return None c.
Proof.
  intros (Hrise & Hhigh & Hlate) Hk Hn.
  unfold measure_distance, start.
  cbn [gpio_output time_time time_calls input_calls trig_writes app].
  rewrite (first_loop_exit hw k fuel _ Hrise Hk).
  cbn [time_time time_calls input_calls trig_writes].
  destruct (poll_while_timeout hw true (clock hw (S (2 + 2 * k))) n fuel
              (clock hw (2 + 2 * k))
              {| time_calls := S (S (2 + 2 * k)); input_calls := S k;
                 trig_writes := [false; true; false] |}) as [c Hc];
    cbn [time_calls input_calls trig_writes].
  - exact Hn.
  - intros j Hj. apply (Hhigh j Hj).
  - replace (S (S (2 + 2 * k)) + 2 * n + 1)%nat with (2 * k + 2 * n + 5)%nat by lia.
    replace (S (2 + 2 * k)) with (2 * k + 3)%nat by lia.
    exact Hlate.
  - rewrite Hc. eauto.
Qed.

(** C5: when the echo line does not reach the active level, or does not
    leave it, before the clock has passed the 100 ms budget of the phase,
    [measure_distance] returns [None]; the ranging loop then changes nothing
    and only pauses for 100 ms before its next pass. *)
Theorem C5_timeout_is_none_and_retried hw self k n fuel cfg app st now :
  never_rises hw n \/ never_falls hw k n ->
  (k < fuel)%nat -> (n < fuel)%nat ->
  (exists c, measure_distance fuel hw self start = Return None c)
  /\ main.iteration cfg app st None now = (st, [main.Sleep (1 # 10)]).
Proof.
  intros [Hrise | Hfall] Hk Hn; (split; [|reflexivity]).
  - exact (measure_distance_never_rises hw self n fuel Hrise Hn).
  - exact (measure_distance_never_falls hw self k n fuel Hfall Hk Hn).
Qed.

Lemma stuck_low_never_rises : never_rises stuck_low_hw 0.
Proof.
  split; [|reflexivity].
  intros i Hi. assert (i = 0%nat) as -> by lia. reflexivity.
Qed.

Lemma stuck_high_never_falls : never_falls stuck_high_hw 1 0.
Proof.
  unfold never_falls, rises_at. repeat split; try reflexivity.
  all: intros.
  all: try match goal with
           | H : (?x < 1)%nat |- _ => assert (x = 0%nat) as -> by lia
           | H : (?x <= 0)%nat |- _ => assert (x = 0%nat) as -> by lia
           end.
  all: try reflexivity; vm_compute; discriminate.
Qed.

(** C5 on a line stuck low and on a line stuck high. *)
Lemma C5_timeout_witness :
  ((exists c, measure_distance 1 stuck_low_hw (new 23 24 None) start = Return None c)
   /\ main.iteration config.ULTRASONIC_CONFIG
        {| main.audio := true; main.haptic := true |} main.initial None 5
      = (main.initial, [main.Sleep (1 # 10)]))
  /\ ((exists c, measure_distance 2 stuck_high_hw (new 23 24 None) start = Return None c)
      /\ main.iteration config.ULTRASONIC_CONFIG
           {| main.audio := true; main.haptic := true |} main.initial None 5
         = (main.initial, [main.Sleep (1 # 10)])).
Proof.
  split.
  - apply (C5_timeout_is_none_and_retried stuck_low_hw (new 23 24 None) 0 0 1);
      [left; exact stuck_low_never_rises | lia | lia].
  - apply (C5_timeout_is_none_and_retried stuck_high_hw (new 23 24 None) 1 0 2);
      [right; exact stuck_high_never_falls | lia | lia].
Defined.

End ultrasonic_facts.

(** ** Broadcast over the Bluetooth client table *)
Module broadcast_facts.

Import bluetooth.

Lemma send_each_events send_ok payload items :
  (send_each send_ok payload items).2 = map (write_event send_ok payload) items.
Proof.
  induction items as [|[cid c] rest IH]; [reflexivity|].
  cbn [send_each]. destruct (send_each send_ok payload rest) as [dis evs].
  cbn [snd] in IH. unfold write_event at 1. cbn [map snd].
  destruct (send_ok (socket c)); cbn [snd]; rewrite IH; reflexivity.
Qed.

Lemma send_each_disconnected send_ok payload items cid :
  cid ∈ (send_each send_ok payload items).1
  <-> exists c, (cid, c) ∈ items /\ send_ok (socket c) = false.
Proof.
  induction items as [|[cid' c'] rest IH].
  - cbn. split.
    + intros H. inversion H.
    + intros (c & H & _). inversion H.
  - cbn [send_each]. destruct (send_each send_ok payload rest) as [dis evs].
    cbn [fst] in IH.
    destruct (send_ok (socket c')) eqn:E; cbn [fst].
    + rewrite IH. split.
      * intros (c & Hin & Hc). exists c. split; [right; exact Hin | exact Hc].
      * intros (c & Hin & Hc). apply elem_of_cons in Hin as [Heq | Hin].
        -- inversion Heq; subst. congruence.
        -- exists c. split; assumption.
    + rewrite elem_of_cons, IH. split.
      * intros [-> | (c & Hin & Hc)].
        -- exists c'. split; [left | exact E].
        -- exists c. split; [right; exact Hin | exact Hc].
      * intros (c & Hin & Hc). apply elem_of_cons in Hin as [Heq | Hin].
        -- inversion Heq; subst. left. reflexivity.
        -- right. exists c. split; assumption.
Qed.

(** The table after the second loop: the noted clients are gone, the others
    are untouched. *)
Lemma purge_lookup disconnected :
  forall (table : gmap string Client) cid,
    (purge disconnected table).1 !! cid =
    if decide (cid ∈ disconnected) then None else table !! cid.
Proof.
  induction disconnected as [|x rest IH]; intros table cid.
  - cbn. destruct (decide (cid ∈ [])) as [H|H]; [inversion H | reflexivity].
  - cbn [purge]. destruct (table !! x) as [c|] eqn:Ex.
    + pose proof (IH (delete x table) cid) as H.
      destruct (purge rest (delete x table)) as [table' evs].
      cbn [fst] in *. rewrite H.
      destruct (decide (cid ∈ rest)) as [Hr|Hr];
        destruct (decide (cid ∈ x :: rest)) as [Hx|Hx]; try reflexivity.
      * exfalso. apply Hx. right. exact Hr.
      * apply elem_of_cons in Hx as [->|Hx]; [|contradiction].
        apply lookup_delete_eq.
      * apply lookup_delete_ne. intros ->. apply Hx. left.
    + rewrite IH.
      destruct (decide (cid ∈ rest)) as [Hr|Hr];
        destruct (decide (cid ∈ x :: rest)) as [Hx|Hx]; try reflexivity.
      * exfalso. apply Hx. right. exact Hr.
      * apply elem_of_cons in Hx as [->|Hx]; [exact Ex | contradiction].
Qed.

(** Every noted client still in the table is closed by the second loop. *)
Lemma purge_closes disconnected :
  forall (table : gmap string Client) cid c,
    cid ∈ disconnected -> table !! cid = Some c ->
    Closed (socket c) ∈ (purge disconnected table).2.
Proof.
  induction disconnected as [|x rest IH]; intros table cid c Hin Hc.
  - inversion Hin.
  - cbn [purge]. destruct (decide (cid = x)) as [->|Hne].
    + rewrite Hc. destruct (purge rest (delete x table)). cbn [snd]. left.
    + apply elem_of_cons in Hin as [?|Hin]; [congruence|].
      destruct (table !! x) as [c'|] eqn:Ex.
      * pose proof (IH (delete x table) cid c Hin) as H.
        rewrite lookup_delete_ne in H by congruence. specialize (H Hc).
        destruct (purge rest (delete x table)). cbn [snd] in *. right. exact H.
      * apply (IH table cid c Hin Hc).
Qed.

(** The second loop does nothing but close sockets. *)
Lemma purge_only_closes disconnected :
  forall (table : gmap string Client),
    Forall is_close (purge disconnected table).2.
Proof.
  induction disconnected as [|x rest IH]; intros table; [constructor|].
  cbn [purge]. destruct (table !! x) as [c|].
  - pose proof (IH (delete x table)) as H.
    destruct (purge rest (delete x table)). cbn [snd] in *.
    constructor; [exact I | exact H].
  - apply IH.
Qed.

Lemma writes_only_write send_ok payload items :
  Forall is_write (map (write_event send_ok payload) items).
Proof.
  apply Forall_forall. intros e He. apply list_elem_of_In, in_map_iff in He.
  destruct He as (item & <- & _). unfold write_event.
  destruct (send_ok (socket item.2)); exact I.
Qed.

(** What a broadcast does, client by client, and the shape of its trace. *)
Lemma broadcast_outcome {W} py send_ok (self : BluetoothManager W) data :
  (forall cid c,
      clients self !! cid = Some c -> send_ok (socket c) = true ->
      Sent (socket c) (json_dumps py data) ∈ (broadcast py send_ok self data).2
      /\ clients (broadcast py send_ok self data).1 !! cid = Some c)
  /\ (forall cid c,
        clients self !! cid = Some c -> send_ok (socket c) = false ->
        Closed (socket c) ∈ (broadcast py send_ok self data).2
        /\ clients (broadcast py send_ok self data).1 !! cid = None)
  /\ (exists writes closes,
        (broadcast py send_ok self data).2 = writes ++ closes
        /\ length writes = size (clients self)
        /\ Forall is_write writes /\ Forall is_close closes).
Proof.
  unfold broadcast. destruct (decide (clients self = ∅)) as [Hempty|Hne].
  { cbn [fst snd]. rewrite Hempty. split; [|split].
    - intros cid c Hc. rewrite lookup_empty in Hc. discriminate.
    - intros cid c Hc. rewrite lookup_empty in Hc. discriminate.
    - exists [], []. rewrite map_size_empty. repeat split; constructor. }
  pose proof (send_each_events send_ok (json_dumps py data)
                (map_to_list (clients self))) as Hevents.
  pose proof (send_each_disconnected send_ok (json_dumps py data)
                (map_to_list (clients self))) as Hdis.
  destruct (send_each send_ok (json_dumps py data) (map_to_list (clients self)))
    as [disconnected sends].
  cbn [fst snd] in Hevents, Hdis. subst sends.
  pose proof (purge_lookup disconnected (clients self)) as Hlookup.
  pose proof (purge_closes disconnected (clients self)) as Hcloses.
  pose proof (purge_only_closes disconnected (clients self)) as Honly.
  destruct (purge disconnected (clients self)) as [table closes].
  cbn [fst snd clients] in *.
  split; [|split].
  - intros cid c Hc Hok. split.
    + apply elem_of_app. left.
      apply list_elem_of_In, in_map_iff. exists (cid, c). split.
      * unfold write_event. cbn [snd]. rewrite Hok. reflexivity.
      * apply list_elem_of_In, elem_of_map_to_list. exact Hc.
    + rewrite Hlookup. destruct (decide (cid ∈ disconnected)) as [Hin|_]; [|exact Hc].
      apply Hdis in Hin as (c' & Hc' & Hfail).
      apply elem_of_map_to_list in Hc'. congruence.
  - intros cid c Hc Hfail.
    assert (Hin : cid ∈ disconnected).
    { apply Hdis. exists c. split; [|exact Hfail].
      apply elem_of_map_to_list. exact Hc. }
    split.
    + apply elem_of_app. right. exact (Hcloses cid c Hin Hc).
    + rewrite Hlookup. destruct (decide (cid ∈ disconnected)); [reflexivity | contradiction].
  - exists (map (write_event send_ok (json_dumps py data)) (map_to_list (clients self))),
      closes.
    repeat split.
    + rewrite length_map. apply length_map_to_list.
    + apply writes_only_write.
    + exact Honly.
Qed.

(** C7: a broadcast writes the payload to every client whose write succeeds
    and keeps it in the table; every client whose write fails is closed and is
    absent from the table afterwards; and the trace is one write per client
    followed by the closes, so no client is removed before the iteration over
    the table is complete. *)
Theorem C7_broadcast_partial_failure {W} py send_ok (self : BluetoothManager W) data :
  (forall cid c,
      clients self !! cid = Some c -> send_ok (socket c) = true ->
      Sent (socket c) (json_dumps py data) ∈ (broadcast py send_ok self data).2
      /\ clients (broadcast py send_ok self data).1 !! cid = Some c)
  /\ (forall cid c,
        clients self !! cid = Some c -> send_ok (socket c) = false ->
        Closed (socket c) ∈ (broadcast py send_ok self data).2
        /\ clients (broadcast py send_ok self data).1 !! cid = None)
  /\ (exists writes closes,
        (broadcast py send_ok self data).2 = writes ++ closes
        /\ length writes = size (clients self)
        /\ Forall is_write writes /\ Forall is_close closes).
Proof. exact (broadcast_outcome py send_ok self data). Qed.

(** Three clients, the write to the second fails: the first and the third
    receive the payload and stay, the second is closed and dropped. *)
Lemma broadcast_three_clients {W} py (self : BluetoothManager W) data :
  clients self = three_clients ->
  (Sent 1 (json_dumps py data) ∈ (broadcast py second_fails self data).2
   /\ is_Some (clients (broadcast py second_fails self data).1 !! "AA:01:1"))
  /\ (Sent 3 (json_dumps py data) ∈ (broadcast py second_fails self data).2
      /\ is_Some (clients (broadcast py second_fails self data).1 !! "CC:03:1"))
  /\ (Closed 2 ∈ (broadcast py second_fails self data).2
      /\ clients (broadcast py second_fails self data).1 !! "BB:02:1" = None).
Proof.
  intros Hclients.
  destruct (broadcast_outcome py second_fails self data)
    as (Hok & Hfail & _).
  rewrite Hclients in Hok, Hfail.
  destruct (Hok "AA:01:1" _ eq_refl eq_refl) as [H1 K1].
  destruct (Hok "CC:03:1" _ eq_refl eq_refl) as [H3 K3].
  destruct (Hfail "BB:02:1" _ eq_refl eq_refl) as [H2 K2].
  rewrite K1, K3. repeat split; eauto.
Qed.

End broadcast_facts.

(** ** Command dispatch on the two transports *)
Module dispatch_facts.

(** On Bluetooth a frame that is not JSON is answered with the format error,
    and the application is left alone. *)
Lemma bluetooth_malformed_frame {W} py send_ok
    (self : bluetooth.BluetoothManager W) client_id data w :
  json_loads py data = RaisesJSONDecodeError ->
  bluetooth._process_received_data py send_ok self client_id data w =
  (w, (bluetooth.send_to_client py send_ok self client_id invalid_format).2).
Proof. intros H. unfold bluetooth._process_received_data. rewrite H. reflexivity. Qed.

(** With the peer in the table and a working socket, that answer is one write
    of the encoded error. *)
Lemma bluetooth_malformed_frame_reply {W} py send_ok
    (self : bluetooth.BluetoothManager W) client_id c data w :
  json_loads py data = RaisesJSONDecodeError ->
  bluetooth.clients self !! client_id = Some c ->
  send_ok (bluetooth.socket c) = true ->
  bluetooth._process_received_data py send_ok self client_id data w =
  (w, [bluetooth.Sent (bluetooth.socket c)
         (json_dumps py
            (JDict [("status", JStr "error");
                    ("message", JStr "Format de données invalide")]))]).
Proof.
  intros H Hc Hok. rewrite (bluetooth_malformed_frame _ _ _ _ _ _ H).
  unfold bluetooth.send_to_client. rewrite Hc, Hok. reflexivity.
Qed.

(** Bytes that are not UTF-8, and JSON that is not an object, end in the
    catch-all handler of either transport: logged, not answered. *)
Lemma undecodable_frame_not_answered {W} py send_ok write_ok
    (bt : bluetooth.BluetoothManager W) (us : usb.USBManager W) client_id data w :
  json_loads py data = RaisesUnicodeDecodeError
  \/ (exists v, json_loads py data = Loaded v /\ forall items, v <> JDict items) ->
  bluetooth._process_received_data py send_ok bt client_id data w = (w, [])
  /\ usb._process_received_data py write_ok us data w = (w, []).
Proof.
  unfold bluetooth._process_received_data, usb._process_received_data.
  intros [H | (v & H & Hv)]; rewrite H; [split; reflexivity|].
  destruct v; try (split; reflexivity). exfalso. apply (Hv items). reflexivity.
Qed.

(** C6 on the code: over USB a frame that is not JSON is logged and nothing is
    written back, whatever the state of the port. *)
Theorem C6_usb_malformed_frame_not_answered {W} py write_ok
    (self : usb.USBManager W) data w :
  json_loads py data = RaisesJSONDecodeError ->
  usb._process_received_data py write_ok self data w = (w, []).
Proof. intros H. unfold usb._process_received_data. rewrite H. reflexivity. Qed.

(** The frame [not json] on an open, running USB port. *)
Lemma C6_usb_not_json_witness :
  usb._process_received_data sample_py true main.sample_usb "not json" main.sample_app
  = (main.sample_app, []).
Proof.
  apply (C6_usb_malformed_frame_not_answered sample_py true main.sample_usb "not json").
  reflexivity.
Defined.

(** The same frame over Bluetooth is answered. *)
Lemma bluetooth_not_json_answered :
  bluetooth._process_received_data sample_py (fun _ => true) main.sample_bluetooth
    "AA:01:1" "not json" main.sample_app
  = (main.sample_app, [bluetooth.Sent 1 (json_dumps sample_py invalid_format)]).
Proof. reflexivity. Qed.



End dispatch_facts.

(** ** The status command *)
Module status_facts.

Import main.

(** No attribute named [last_distance] exists on the sensor. *)
Lemma sensor_has_no_last_distance (s : ultrasonic.UltrasonicSensor) :
  ultrasonic.instance_dict s !! "last_distance" = None.
Proof.
  unfold ultrasonic.instance_dict.
  rewrite !lookup_insert_ne by discriminate. apply lookup_empty.
Qed.

(** The status handler reads an attribute the sensor never has. *)
Lemma status_reads_missing_attribute (self : CanneApp) params now :
  response_field (_handle_bt_get_status self params now) "last_distance" = Some JNull
  /\ response_field (_handle_usb_get_status self params now) "last_distance" = Some JNull.
Proof.
  unfold _handle_usb_get_status, _handle_bt_get_status, response_field, getattr.
  rewrite sensor_has_no_last_distance. split; reflexivity.
Qed.

(** C9 on the code: whatever the application and its sensor, the
    [last_distance] field of the status response is [None], on both
    transports. *)
Theorem C9_status_last_distance_is_none (self : CanneApp) params now :
  response_field (_handle_bt_get_status self params now) "last_distance" = Some JNull
  /\ response_field (_handle_usb_get_status self params now) "last_distance" = Some JNull.
Proof. exact (status_reads_missing_attribute self params now). Qed.

(** The ranging loop measures 200 cm and records it; a status request made
    afterwards still reports [None]. *)
Lemma status_after_a_measure :
  exists c,
    ultrasonic.measure_distance 2 ultrasonic.max_range_hw
      (ultrasonic.new 23 24 (Some 200)) ultrasonic.start
    = ultrasonic.Return (Some 200) c
  /\ last_distance
       (iteration config.ULTRASONIC_CONFIG {| audio := true; haptic := true |}
          initial (Some 200) 100).1 = Some 200
  /\ response_field
       (_handle_bt_get_status
          {| running := true; camera := true; object_detector := true;
             ultrasonic := ultrasonic.new 23 24 (Some 200);
             actuators := {| audio := true; haptic := true |} |}
          (JDict []) 101) "last_distance" = Some JNull.
Proof.
  eexists. split; [vm_compute; reflexivity|]. split; [reflexivity|].
  apply status_reads_missing_attribute.
Qed.

End status_facts.

(** ** Object detection *)
Module detector_facts.

Import object_detector.

Lemma insert_desc_head d l e :
  HdRel confidence_desc e l -> confidence d <= confidence e ->
  HdRel confidence_desc e (insert_desc d l).
Proof.
  intros Hl Hd. destruct l as [|x rest]; cbn [insert_desc].
  - constructor. exact Hd.
  - destruct (Qgtb (confidence x) (confidence d)).
    + constructor. inversion Hl; assumption.
    + constructor. exact Hd.
Qed.

Lemma insert_desc_sorted d l :
  Sorted confidence_desc l -> Sorted confidence_desc (insert_desc d l).
Proof.
  induction l as [|e rest IH]; intros Hs; cbn [insert_desc].
  - repeat constructor.
  - destruct (Qgtb (confidence e) (confidence d)) eqn:E; qorder.
    + inversion Hs as [|? ? Hrest Hhd]; subst. constructor.
      * apply IH. exact Hrest.
      * apply insert_desc_head; [exact Hhd | lra].
    + constructor; [exact Hs|]. constructor. exact E.
Qed.

Lemma sort_desc_sorted l : Sorted confidence_desc (sort_desc l).
Proof.
  induction l as [|d l IH]; [constructor|].
  cbn [sort_desc foldr]. apply insert_desc_sorted. exact IH.
Qed.

Lemma confidence_desc_trans : Transitive confidence_desc.
Proof. intros a b c Hab Hbc. unfold confidence_desc in *. lra. Qed.

Lemma sort_desc_strongly_sorted l : StronglySorted confidence_desc (sort_desc l).
Proof.
  apply (@Sorted_StronglySorted _ _ confidence_desc_trans). apply sort_desc_sorted.
Qed.

Lemma take_strongly_sorted n (l : list Detection) :
  StronglySorted confidence_desc l -> StronglySorted confidence_desc (take n l).
Proof.
  intros H. rewrite <- (take_drop n l) in H.
  apply StronglySorted_app_1_l in H. exact H.
Qed.

Lemma slice_to_strongly_sorted n (l : list Detection) :
  StronglySorted confidence_desc l -> StronglySorted confidence_desc (slice_to n l).
Proof. unfold slice_to. destruct (0 <=? n)%Z; apply take_strongly_sorted. Qed.

Lemma slice_to_length {A} n (l : list A) :
  (0 <= n)%Z -> (Z.of_nat (length (slice_to n l)) <= n)%Z.
Proof.
  intros Hn. unfold slice_to.
  destruct (0 <=? n)%Z eqn:E; [|apply Z.leb_gt in E; lia].
  rewrite length_take. lia.
Qed.

(** The result of [detect_objects] is always sorted. *)
Lemma detect_objects_sorted self frame :
  StronglySorted confidence_desc (detect_objects self frame).
Proof.
  unfold detect_objects.
  destruct frame as [f|]; [|constructor].
  destruct (size f =? 0)%nat; [constructor|].
  destruct (shape f) as [|height [|width rest]]; try constructor.
  destruct (net self f) as [rows|]; [|constructor].
  apply slice_to_strongly_sorted, sort_desc_strongly_sorted.
Qed.

(** C10: [detect_objects] returns the empty list for a missing or empty frame
    and whenever the detection pipeline fails; its result is always sorted by
    descending confidence and, [max_detections] being a count, never longer
    than [max_detections]. *)
Theorem C10_detect_objects_total self frame :
  (0 <= max_detections self)%Z ->
  (frame = None -> detect_objects self frame = [])
  /\ (forall f, frame = Some f -> size f = 0%nat -> detect_objects self frame = [])
  /\ (forall f, frame = Some f -> net self f = None -> detect_objects self frame = [])
  /\ StronglySorted confidence_desc (detect_objects self frame)
  /\ (Z.of_nat (length (detect_objects self frame)) <= max_detections self)%Z.
Proof.
  intros Hmax. repeat split.
  - intros ->. reflexivity.
  - intros f -> Hsize. cbn [detect_objects]. rewrite Hsize. reflexivity.
  - intros f -> Hnet. cbn [detect_objects]. rewrite Hnet.
    destruct (size f =? 0)%nat; [reflexivity|].
    destruct (shape f) as [|height [|width rest]]; reflexivity.
  - apply detect_objects_sorted.
  - unfold detect_objects.
    destruct frame as [f|]; [|exact Hmax].
    destruct (size f =? 0)%nat; [exact Hmax|].
    destruct (shape f) as [|height [|width rest]]; try exact Hmax.
    destruct (net self f) as [rows|]; [|exact Hmax].
    apply slice_to_length. exact Hmax.
Qed.

(** C10 on a 300 x 300 frame with three rows, one below the threshold. *)
Lemma C10_detect_objects_witness :
  map class_name (detect_objects sample_detector (Some sample_frame))
    = ["chaise"; "voiture"]
  /\ detect_objects failing_detector (Some sample_frame) = []
  /\ StronglySorted confidence_desc (detect_objects sample_detector (Some sample_frame)).
Proof.
  destruct (C10_detect_objects_total sample_detector (Some sample_frame))
    as (_ & _ & _ & Hsorted & _); [vm_compute; discriminate|].
  destruct (C10_detect_objects_total failing_detector (Some sample_frame))
    as (_ & _ & Hfail & _); [vm_compute; discriminate|].
  split; [vm_compute; reflexivity|].
  split; [apply (Hfail sample_frame); reflexivity | exact Hsorted].
Defined.

End detector_facts.

(** * Further properties *)

(** ** The ranging call on an arbitrary line *)
Module ranging_facts.

Import ultrasonic ranging.

(** What a polling loop keeps, whatever the line does: the trigger writes,
    the direction of the clock cursor, and the origin of the time it hands
    back. *)
Lemma poll_while_inv hw level ts :
  forall fuel pulse c a c',
    poll_while fuel hw level ts pulse c = Return a c' ->
    trig_writes c' = trig_writes c
    /\ (time_calls c <= time_calls c')%nat
    /\ (forall p, a = Some p ->
          p = pulse
          \/ exists i, (time_calls c <= i)%nat /\ (i < time_calls c')%nat
                       /\ p = clock hw i).
Proof.
  induction fuel as [|fuel IH]; intros pulse c a c' H; [discriminate|].
  cbn [poll_while gpio_input] in H.
  destruct (Bool.eqb (echo hw (input_calls c)) level).
  - cbn [time_time time_calls input_calls trig_writes] in H.
    destruct (Qgtb (clock hw (S (time_calls c)) - ts) TIMEOUT).
    + inversion H; subst. cbn. repeat split; [lia|]. intros p Hp. discriminate.
    + apply IH in H. cbn [time_calls input_calls trig_writes] in H.
      destruct H as (Hw & Ht & Hp). repeat split; [exact Hw | lia |].
      intros p Ha. destruct (Hp p Ha) as [-> | (i & Hi1 & Hi2 & ->)].
      * right. exists (time_calls c). repeat split; lia.
      * right. exists i. repeat split; lia.
  - inversion H; subst. cbn. repeat split; [lia|]. intros p Hp.
    inversion Hp; subst. left. reflexivity.
Qed.

(** A polling loop returns as soon as the clock has passed the budget, whatever
    the line does. *)
Lemma poll_while_returns hw level ts n :
  forall fuel pulse c,
    (n < fuel)%nat ->
    TIMEOUT < clock hw (time_calls c + 2 * n + 1) - ts ->
    exists a c', poll_while fuel hw level ts pulse c = Return a c'.
Proof.
  induction n as [|n IH]; intros fuel pulse c Hfuel Hlate;
    (destruct fuel as [|fuel]; [lia|]); cbn [poll_while gpio_input];
    (destruct (Bool.eqb (echo hw (input_calls c)) level); [|eauto]);
    cbn [time_time time_calls input_calls trig_writes].
  - replace (time_calls c + 2 * 0 + 1)%nat with (S (time_calls c)) in Hlate by lia.
    apply Qgtb_true in Hlate. rewrite Hlate. eauto.
  - destruct (Qgtb (clock hw (S (time_calls c)) - ts) TIMEOUT); [eauto|].
    apply IH; cbn [time_calls]; [lia|].
    replace (S (S (time_calls c)) + 2 * n + 1)%nat
      with (time_calls c + 2 * S n + 1)%nat by lia.
    exact Hlate.
Qed.

Lemma monotone_le hw i j :
  monotone hw -> (i <= j)%nat -> clock hw i <= clock hw j.
Proof.
  intros Hmono Hij. induction Hij as [|j Hij IH]; [lra|].
  pose proof (Hmono j). lra.
Qed.

Lemma round_half_even_nonneg x : 0 <= x -> (0 <= round_half_even x)%Z.
Proof.
  intros Hx. unfold round_half_even.
  assert (H0 : (0 <= Qfloor x)%Z).
  { change 0%Z with (Qfloor 0). apply Qfloor_resp_le. exact Hx. }
  repeat match goal with |- context [if ?b then _ else _] => destruct b end; lia.
Qed.

Lemma py_round2_nonneg x : 0 <= x -> 0 <= py_round2 x.
Proof.
  intros Hx. unfold py_round2. rewrite Qred_correct.
  assert (H : (0 <= round_half_even (x * 100))%Z)
    by (apply round_half_even_nonneg; lra).
  apply Qle_shift_div_l; [reflexivity|].
  rewrite Qmult_0_l. change 0 with (inject_Z 0). rewrite <- Zle_Qle. exact H.
Qed.

Lemma distance_of_pulse_nonneg self d :
  0 <= d -> 0 <= max_distance self -> 0 <= distance_of_pulse self d.
Proof.
  intros Hd Hmax. unfold distance_of_pulse.
  destruct (Qgtb (py_round2 (d * 17150)) (max_distance self)); [exact Hmax|].
  apply py_round2_nonneg. lra.
Qed.

(** What a completed measure looks like, on any line: the two recorded times
    are clock readings, the second taken after the first. *)
Lemma measure_distance_shape hw self fuel r c :
  measure_distance fuel hw self start = Return (Some r) c ->
  exists i j, (i <= j)%nat
    /\ r = distance_of_pulse self (clock hw j - clock hw i).
Proof.
  unfold measure_distance, start.
  cbn [gpio_output time_time time_calls input_calls trig_writes app].
  destruct (poll_while fuel hw false (clock hw 1) (clock hw 0)
              {| time_calls := 2; input_calls := 0;
                 trig_writes := [false; true; false] |})
    as [|[ps|] c1] eqn:E1; try discriminate.
  apply poll_while_inv in E1. cbn [time_calls] in E1.
  destruct E1 as (_ & Ht1 & Hp1).
  cbn [time_time time_calls input_calls trig_writes].
  destruct (poll_while fuel hw true (clock hw (S (time_calls c1)))
              (clock hw (time_calls c1))
              {| time_calls := S (S (time_calls c1)); input_calls := input_calls c1;
                 trig_writes := trig_writes c1 |})
    as [|[pe|] c2] eqn:E2; try discriminate.
  apply poll_while_inv in E2. cbn [time_calls] in E2.
  destruct E2 as (_ & Ht2 & Hp2).
  intros H. inversion H; subst.
  destruct (Hp1 ps eq_refl) as [-> | (i & Hi1 & Hi2 & ->)];
    destruct (Hp2 pe eq_refl) as [-> | (j & Hj1 & Hj2 & ->)].
  - exists 0%nat, (time_calls c1). split; [lia | reflexivity].
  - exists 0%nat, j. split; [lia | reflexivity].
  - exists i, (time_calls c1). split; [lia | reflexivity].
  - exists i, j. split; [lia | reflexivity].
Qed.

(** X1: on a clock that keeps advancing the call returns within a bounded
    number of polls, whatever the echo line does: with [2 n + 2] readings
    always spanning more than 100 ms, [n + 1] rounds per loop are enough. *)
Theorem X1_measure_distance_returns hw self n :
  paces hw n ->
  exists r c, measure_distance (S n) hw self start = Return r c.
Proof.
  intros Hpace. unfold measure_distance, start.
  cbn [gpio_output time_time time_calls input_calls trig_writes app].
  destruct (poll_while_returns hw false (clock hw 1) n (S n) (clock hw 0)
              {| time_calls := 2; input_calls := 0;
                 trig_writes := [false; true; false] |}) as (a & c1 & E1).
  - lia.
  - cbn [time_calls]. replace (2 + 2 * n + 1)%nat with (1 + (2 * n + 2))%nat by lia.
    apply Hpace.
  - rewrite E1. destruct a as [ps|]; [|eauto].
    cbn [time_time time_calls input_calls trig_writes].
    destruct (poll_while_returns hw true (clock hw (S (time_calls c1))) n (S n)
                (clock hw (time_calls c1))
                {| time_calls := S (S (time_calls c1));
                   input_calls := input_calls c1;
                   trig_writes := trig_writes c1 |}) as (a & c2 & E2).
    + lia.
    + cbn [time_calls].
      replace (S (S (time_calls c1)) + 2 * n + 1)%nat
        with (S (time_calls c1) + (2 * n + 2))%nat by lia.
      apply Hpace.
    + rewrite E2. destruct a as [pe|]; eauto.
Qed.

Lemma ticking_paces line : paces (ticking (1 # 100) line) 5.
Proof.
  intros i. unfold ticking, TIMEOUT. cbn [clock].
  rewrite Nat2Z.inj_add, inject_Z_plus.
  change (inject_Z (Z.of_nat (2 * 5 + 2))) with 12.
  lra.
Qed.

(** X1 on a clock ticking every 10 ms and a line stuck low. *)
Lemma X1_measure_distance_returns_witness :
  exists r c,
    measure_distance 6 (ticking (1 # 100) (fun _ => false)) (new 23 24 None) start
    = Return r c.
Proof.
  apply (X1_measure_distance_returns (ticking (1 # 100) (fun _ => false))
           (new 23 24 None) 5).
  apply ticking_paces.
Defined.

(** X2: a distance returned by [measure_distance] never exceeds
    [max_distance], whatever the line and the clock do; and on a clock that
    does not run backwards, with a non-negative [max_distance], it is never
    negative. *)
Theorem X2_measure_distance_range hw self fuel r c :
  measure_distance fuel hw self start = Return (Some r) c ->
  r <= max_distance self
  /\ (monotone hw -> 0 <= max_distance self -> 0 <= r).
Proof.
  intros H. apply measure_distance_shape in H as (i & j & Hij & ->). split.
  - apply ultrasonic_facts.distance_of_pulse_cases.
  - intros Hmono Hmax. apply distance_of_pulse_nonneg; [|exact Hmax].
    pose proof (monotone_le hw i j Hmono Hij). lra.
Qed.

(** X2 on the pulse of [test_measure_distance_normal]. *)
Lemma X2_measure_distance_range_witness :
  (1252 # 25) <= max_distance (new 23 24 (Some 200))
  /\ (monotone normal_hw -> 0 <= max_distance (new 23 24 (Some 200)) ->
      0 <= 1252 # 25).
Proof.
  apply (X2_measure_distance_range normal_hw (new 23 24 (Some 200)) 2 (1252 # 25)
           {| time_calls := 8; input_calls := 4;
              trig_writes := [false; true; false] |}).
  vm_compute. reflexivity.
Defined.

(** X3: whatever the outcome, the call has written low, high, low to the
    trigger pin and nothing else: one pulse, and the pin left low. *)
Theorem X3_trigger_pulse_once hw self fuel a c :
  measure_distance fuel hw self start = Return a c ->
  trig_writes c = [false; true; false].
Proof.
  unfold measure_distance, start.
  cbn [gpio_output time_time time_calls input_calls trig_writes app].
  destruct (poll_while fuel hw false (clock hw 1) (clock hw 0)
              {| time_calls := 2; input_calls := 0;
                 trig_writes := [false; true; false] |})
    as [|[ps|] c1] eqn:E1; try discriminate;
    apply poll_while_inv in E1; destruct E1 as (Hw1 & _).
  2: { intros H. inversion H; subst. exact Hw1. }
  cbn [time_time time_calls input_calls trig_writes].
  destruct (poll_while fuel hw true (clock hw (S (time_calls c1)))
              (clock hw (time_calls c1))
              {| time_calls := S (S (time_calls c1)); input_calls := input_calls c1;
                 trig_writes := trig_writes c1 |})
    as [|[pe|] c2] eqn:E2; try discriminate;
    apply poll_while_inv in E2; destruct E2 as (Hw2 & _);
    intros H; inversion H; subst; cbn [trig_writes] in Hw1, Hw2; congruence.
Qed.

(** X3 on a line stuck low. *)
Lemma X3_trigger_pulse_once_witness :
  trig_writes {| time_calls := 4; input_calls := 1;
                 trig_writes := [false; true; false] |} = [false; true; false].
Proof.
  apply (X3_trigger_pulse_once stuck_low_hw (new 23 24 None) 1 None).
  vm_compute. reflexivity.
Defined.

End ranging_facts.

(** ** The ranging loop over sequences of samples *)
Module ranging_loop_facts.

Import config main ranging_loop main_facts.

Lemma run_cons cfg app st s rest :
  run cfg app st (s :: rest) =
  ((run cfg app (iteration cfg app st s.1 s.2).1 rest).1,
   (iteration cfg app st s.1 s.2).2
   ++ (run cfg app (iteration cfg app st s.1 s.2).1 rest).2).
Proof.
  destruct s as [d t]. cbn [run fst snd].
  destruct (iteration cfg app st d t) as [st1 a1]. cbn [fst snd].
  destruct (run cfg app st1 rest) as [st2 a2]. reflexivity.
Qed.

(** Samples that stay close to their predecessor and soon after the last
    alert raise nothing and leave the time of the last alert alone. *)
Lemma quiet_run cfg app :
  forall samples st prev,
    last_distance st = Some prev ->
    chained prev samples ->
    Forall (fun s => s.2 - last_alert_time st <= 3) samples ->
    alerts (run cfg app st (map valid samples)).2 = [].
Proof.
  induction samples as [|[d t] rest IH]; intros st prev Hlast Hchain Hsoon;
    [reflexivity|].
  cbn [map]. rewrite run_cons. cbn [valid fst snd].
  destruct Hchain as [Hd Hchain]. inversion Hsoon as [|? ? Ht Hrest]; subst.
  cbn [snd] in Ht.
  assert (Hdue : alert_due st d t = false)
    by (apply (alert_due_false st prev); assumption).
  rewrite alerts_app, alerts_iteration, Hdue. cbn [List.app].
  apply (IH _ d).
  - rewrite state_iteration. reflexivity.
  - exact Hchain.
  - rewrite state_iteration, Hdue. exact Hrest.
Qed.

(** X4: however many they are, valid samples that each stay within 10 cm of
    the one before and all arrive within one 3 s window raise at most one
    alert, from any state of the loop. *)
Theorem X4_near_static_run_alerts_once cfg app :
  forall samples st,
    near_static samples -> within_window samples ->
    (length (alerts (run cfg app st (map valid samples)).2) <= 1)%nat.
Proof.
  induction samples as [|[d t] rest IH]; intros st Hstatic Hwindow;
    [cbn; lia|].
  cbn [map]. rewrite run_cons. cbn [valid fst snd].
  cbn [near_static fst] in Hstatic. destruct Hwindow as [Hsoon Hwindow].
  cbn [snd] in Hsoon.
  rewrite alerts_app, alerts_iteration, length_app.
  destruct (alert_due st d t
            && (Qltb d (DANGER_DISTANCE cfg) || Qltb d (WARNING_DISTANCE cfg)))
    eqn:Hraise.
  - (* this sample raises the alert: the rest is quiet *)
    rewrite (quiet_run cfg app rest _ d).
    + destruct (alert_due st d t); [|cbn; lia].
      destruct (Qltb d (DANGER_DISTANCE cfg)); [cbn; lia|].
      destruct (Qltb d (WARNING_DISTANCE cfg)); cbn; lia.
    + rewrite state_iteration. reflexivity.
    + exact Hstatic.
    + rewrite state_iteration, Hraise. exact Hsoon.
  - (* this sample raises nothing *)
    assert (Hnone : (if alert_due st d t
                     then if Qltb d (DANGER_DISTANCE cfg) then [Danger]
                          else if Qltb d (WARNING_DISTANCE cfg) then [Warning]
                          else []
                     else []) = []).
    { destruct (alert_due st d t); [|reflexivity].
      destruct (Qltb d (DANGER_DISTANCE cfg)); [discriminate|].
      destruct (Qltb d (WARNING_DISTANCE cfg)); [discriminate | reflexivity]. }
    rewrite Hnone. cbn [length Nat.add]. apply IH; [|exact Hwindow].
    destruct rest as [|[d' t'] rest']; [exact I|]. apply Hstatic.
Qed.

(** X4 on four samples around 40 cm, read every 0.8 s. *)
Lemma X4_near_static_run_witness :
  (length (alerts (run ULTRASONIC_CONFIG {| audio := true; haptic := true |} initial
                     (map valid [(40, 100); (42, 1008 # 10); (38, 1016 # 10);
                                 (45, 1024 # 10)]%Q)).2) <= 1)%nat.
Proof.
  apply (X4_near_static_run_alerts_once ULTRASONIC_CONFIG
           {| audio := true; haptic := true |}
           [(40, 100); (42, 1008 # 10); (38, 1016 # 10); (45, 1024 # 10)]%Q initial).
  - cbn. repeat split; vm_compute; discriminate.
  - cbn. repeat split; repeat constructor; vm_compute; discriminate.
Defined.

Lemma broadcasts_app (a b : list action) :
  broadcasts (a ++ b) = broadcasts a ++ broadcasts b.
Proof.
  induction a as [|x a IH]; [reflexivity|].
  destruct x; cbn [List.app broadcasts]; rewrite ?IH; reflexivity.
Qed.

Lemma broadcasts_speak_if app text priority :
  broadcasts (speak_if app text priority) = [].
Proof. unfold speak_if. destruct (audio app); reflexivity. Qed.

Lemma broadcasts_vibrate_danger app : broadcasts (vibrate_if app VibrateDanger) = [].
Proof. unfold vibrate_if. destruct (haptic app); reflexivity. Qed.

Lemma broadcasts_vibrate_warning app : broadcasts (vibrate_if app VibrateWarning) = [].
Proof. unfold vibrate_if. destruct (haptic app); reflexivity. Qed.

(** The broadcasts of one pass, in closed form: the alert guard plays no
    part. *)
Lemma broadcasts_iteration cfg app st d now :
  broadcasts (iteration cfg app st (Some d) now).2 =
  if Qgtb (now - last_broadcast_time st) 1 then [d] else [].
Proof.
  unfold iteration.
  destruct (Qgtb (now - last_broadcast_time st) 1);
    destruct (alert_due st d now);
    destruct (Qltb d (DANGER_DISTANCE cfg));
    destruct (Qltb d (WARNING_DISTANCE cfg));
    cbn [snd]; rewrite ?broadcasts_app; cbn [broadcasts List.app];
    rewrite ?broadcasts_app, ?broadcasts_speak_if, ?broadcasts_vibrate_danger,
      ?broadcasts_vibrate_warning; reflexivity.
Qed.

(** X5: telemetry does not depend on the alert policy: when every valid
    sample arrives more than 1 s after the one before (and the first more than
    1 s after the last broadcast), every sample is broadcast, in order,
    whether or not it raises an alert. *)
Theorem X5_spaced_samples_all_broadcast cfg app :
  forall samples st,
    spaced (last_broadcast_time st) samples ->
    broadcasts (run cfg app st (map valid samples)).2 = map fst samples.
Proof.
  induction samples as [|[d t] rest IH]; intros st Hspaced; [reflexivity|].
  cbn [map]. rewrite run_cons. cbn [valid fst snd].
  destruct Hspaced as [Hfirst Hrest]. cbn [snd] in Hfirst, Hrest.
  apply Qgtb_true in Hfirst.
  rewrite broadcasts_app, broadcasts_iteration, Hfirst. cbn [List.app].
  f_equal. apply IH. rewrite state_iteration, Hfirst. exact Hrest.
Qed.

(** X5 on a constant 40 cm read every 1.5 s: one alert, four broadcasts. *)
Lemma X5_spaced_samples_witness :
  broadcasts (run ULTRASONIC_CONFIG {| audio := true; haptic := true |} initial
                (map valid [(40, 100); (40, 1015 # 10); (40, 103); (40, 1045 # 10)])).2
  = map fst [(40, 100); (40, 1015 # 10); (40, 103); (40, 1045 # 10)].
Proof.
  apply (X5_spaced_samples_all_broadcast ULTRASONIC_CONFIG
           {| audio := true; haptic := true |}
           [(40, 100); (40, 1015 # 10); (40, 103); (40, 1045 # 10)] initial).
  cbn. repeat split; vm_compute; reflexivity.
Defined.

(** X6: after a broadcast, nothing is broadcast for the next second: samples
    (or timeouts) read no more than 1 s after the last broadcast leave the
    transports alone. *)
Theorem X6_no_broadcast_within_one_second cfg app :
  forall samples st,
    Forall (fun s => s.2 - last_broadcast_time st <= 1) samples ->
    broadcasts (run cfg app st samples).2 = []
    /\ last_broadcast_time (run cfg app st samples).1 = last_broadcast_time st.
Proof.
  induction samples as [|[d t] rest IH]; intros st Hsoon; [split; reflexivity|].
  rewrite run_cons. cbn [fst snd].
  inversion Hsoon as [|? ? Ht Hrest]; subst. cbn [snd] in Ht.
  apply Qgtb_false in Ht.
  destruct d as [d|].
  - assert (Hkeep : last_broadcast_time (iteration cfg app st (Some d) t).1
                    = last_broadcast_time st)
      by (rewrite state_iteration; cbn [last_broadcast_time]; rewrite Ht; reflexivity).
    rewrite broadcasts_app, broadcasts_iteration, Ht. cbn [List.app].
    rewrite <- Hkeep. apply IH. rewrite Hkeep. exact Hrest.
  - cbn [iteration fst snd List.app broadcasts]. apply IH. exact Hrest.
Qed.

(** X6 after a broadcast at t = 100 s. *)
Lemma X6_no_broadcast_witness :
  broadcasts (run ULTRASONIC_CONFIG {| audio := true; haptic := true |}
                {| last_distance := Some 40; last_alert_time := 100;
                   last_broadcast_time := 100 |}
                [(Some 20, 1003 # 10); (None, 1005 # 10); (Some 90, 101)]).2 = []
  /\ last_broadcast_time
       (run ULTRASONIC_CONFIG {| audio := true; haptic := true |}
          {| last_distance := Some 40; last_alert_time := 100;
             last_broadcast_time := 100 |}
          [(Some 20, 1003 # 10); (None, 1005 # 10); (Some 90, 101)]).1 = 100.
Proof.
  apply (X6_no_broadcast_within_one_second ULTRASONIC_CONFIG
           {| audio := true; haptic := true |}
           [(Some 20, 1003 # 10); (None, 1005 # 10); (Some 90, 101)]
           {| last_distance := Some 40; last_alert_time := 100;
              last_broadcast_time := 100 |}).
  repeat constructor; vm_compute; discriminate.
Defined.

Lemma effects_app (a b : list action) : effects (a ++ b) = effects a ++ effects b.
Proof. unfold effects. apply List.filter_app. Qed.

(** X7: measures that time out are invisible to the policy: dropping them
    from the sequence of samples changes neither the final state nor anything
    the loop does besides pausing. *)
Theorem X7_timeouts_are_transparent cfg app :
  forall samples st,
    (run cfg app st samples).1 = (run cfg app st (List.filter measured samples)).1
    /\ effects (run cfg app st samples).2
       = effects (run cfg app st (List.filter measured samples)).2.
Proof.
  induction samples as [|[d t] rest IH]; intros st; [split; reflexivity|].
  cbn [List.filter]. destruct d as [d|]; cbn [measured fst].
  - rewrite !run_cons. cbn [fst snd]. rewrite !effects_app.
    destruct (IH (iteration cfg app st (Some d) t).1) as [-> ->].
    split; reflexivity.
  - rewrite run_cons. cbn [iteration fst snd]. rewrite effects_app.
    cbn [effects List.filter is_sleep negb List.app]. apply IH.
Qed.

End ranging_loop_facts.

(** ** The spoken summary of a detection *)
Module summary_facts.

Import object_detector summary.

Lemma tally_bump counts k name :
  tally (bump counts k) name
  = (tally counts name + if String.eqb k name then 1 else 0)%nat.
Proof.
  induction counts as [|[k0 n] rest IH]; cbn [bump tally].
  - destruct (String.eqb k name); reflexivity.
  - destruct (String.eqb k0 k) eqn:E0; cbn [tally].
    + apply String.eqb_eq in E0. subst k0.
      destruct (String.eqb k name); lia.
    + destruct (String.eqb k0 name) eqn:E1; [|exact IH].
      apply String.eqb_eq in E1. subst k0.
      rewrite String.eqb_sym, E0. lia.
Qed.

Lemma keys_bump counts k :
  map fst (bump counts k)
  = if decide (k ∈ map fst counts) then map fst counts else map fst counts ++ [k].
Proof.
  induction counts as [|[k0 n] rest IH]; cbn [bump map fst].
  - destruct (decide (k ∈ [])) as [H|_]; [inversion H | reflexivity].
  - destruct (String.eqb k0 k) eqn:E0.
    + apply String.eqb_eq in E0. subst k0. cbn [map fst].
      destruct (decide (k ∈ k :: map fst rest)) as [_|H]; [reflexivity|].
      exfalso. apply H. left.
    + apply String.eqb_neq in E0. cbn [map fst]. rewrite IH.
      destruct (decide (k ∈ map fst rest)) as [Hin|Hin];
        destruct (decide (k ∈ k0 :: map fst rest)) as [Hin'|Hin']; try reflexivity.
      * exfalso. apply Hin'. right. exact Hin.
      * exfalso. apply elem_of_cons in Hin' as [->|?]; [congruence | contradiction].
Qed.

Lemma keys_bump_NoDup counts k :
  NoDup (map fst counts) -> NoDup (map fst (bump counts k)).
Proof.
  intros H. rewrite keys_bump.
  destruct (decide (k ∈ map fst counts)) as [Hin|Hin]; [exact H|].
  apply NoDup_app. repeat split; [exact H | | apply NoDup_singleton].
  intros x Hx Hk. apply list_elem_of_singleton in Hk. subst. contradiction.
Qed.

Lemma positive_bump counts k :
  Forall (fun item => (1 <= item.2)%nat) counts ->
  Forall (fun item => (1 <= item.2)%nat) (bump counts k).
Proof.
  induction counts as [|[k0 n] rest IH]; intros H; cbn [bump].
  - repeat constructor.
  - inversion H as [|? ? Hn Hrest]; subst.
    destruct (String.eqb k0 k); constructor; cbn [snd] in *; auto; lia.
Qed.

Lemma tally_of_member counts name n :
  NoDup (map fst counts) -> (name, n) ∈ counts -> tally counts name = n.
Proof.
  induction counts as [|[k0 n0] rest IH]; intros Hnd Hin; [inversion Hin|].
  cbn [map fst] in Hnd. apply NoDup_cons in Hnd as [Hk0 Hnd].
  cbn [tally]. apply elem_of_cons in Hin as [Heq|Hin].
  - inversion Heq; subst. rewrite String.eqb_refl. reflexivity.
  - destruct (String.eqb k0 name) eqn:E; [|apply IH; assumption].
    apply String.eqb_eq in E. subst k0. exfalso. apply Hk0.
    apply list_elem_of_fmap. exists (name, n). split; [reflexivity | exact Hin].
Qed.

(** The counting loop, from any dictionary it is resumed with. *)
Lemma counting_loop detections :
  forall counts,
    NoDup (map fst counts) ->
    Forall (fun item => (1 <= item.2)%nat) counts ->
    let final := fold_left (fun counts d => bump counts (class_name d)) detections counts in
    NoDup (map fst final)
    /\ Forall (fun item => (1 <= item.2)%nat) final
    /\ forall name, tally final name = (tally counts name + occurrences detections name)%nat.
Proof.
  induction detections as [|d rest IH]; intros counts Hnd Hpos; cbn [fold_left].
  - repeat split; [exact Hnd | exact Hpos |]. intros name. cbn. lia.
  - destruct (IH (bump counts (class_name d)) (keys_bump_NoDup _ _ Hnd)
                (positive_bump _ _ Hpos)) as (Hnd' & Hpos' & Htally).
    repeat split; [exact Hnd' | exact Hpos' |].
    intros name. rewrite Htally, tally_bump. unfold occurrences. cbn [List.filter].
    destruct (String.eqb (class_name d) name); cbn [length]; lia.
Qed.

(** X8: the summary counts every class once, with the number of detections
    of that class: the keys of [class_counts] are distinct, the count kept for
    a name is the number of detections carrying it, and no count is zero. *)
Theorem X8_class_counts_are_exact detections :
  NoDup (map fst (class_counts detections))
  /\ (forall name, tally (class_counts detections) name = occurrences detections name)
  /\ (forall name n,
        (name, n) ∈ class_counts detections ->
        n = occurrences detections name /\ (1 <= n)%nat).
Proof.
  destruct (counting_loop detections [] (NoDup_nil_2 (A:=string)) (Forall_nil_2 _))
    as (Hnd & Hpos & Htally).
  fold (class_counts detections) in Hnd, Hpos, Htally.
  split; [exact Hnd|]. split; [exact Htally|].
  intros name n Hin. split.
  - rewrite <- (tally_of_member _ name n Hnd Hin). apply Htally.
  - rewrite Forall_forall in Hpos. apply (Hpos (name, n)). exact Hin.
Qed.

(** Two people, a car and a chair, as in [test_get_detection_summary_multiple]. *)
Example get_detection_summary_multiple :
  get_detection_summary
    [mk "personne" (8 # 10); mk "personne" (7 # 10); mk "voiture" (9 # 10);
     mk "chaise" (6 # 10)]
  = "Détecté: 2 personnes, un voiture et un chaise.".
Proof. vm_compute. reflexivity. Qed.

End summary_facts.

(** ** Which detections are returned *)
Module selection_facts.

Import object_detector detector_facts.

Lemma insert_desc_perm d l : insert_desc d l ≡ₚ d :: l.
Proof.
  induction l as [|e rest IH]; cbn [insert_desc]; [reflexivity|].
  destruct (Qgtb (confidence e) (confidence d)); [|reflexivity].
  rewrite IH. apply Permutation_swap.
Qed.

Lemma sort_desc_perm l : sort_desc l ≡ₚ l.
Proof.
  induction l as [|d l IH]; [reflexivity|].
  cbn [sort_desc foldr]. rewrite insert_desc_perm. fold (sort_desc l).
  rewrite IH. reflexivity.
Qed.

Lemma collect_above_threshold self width height rows :
  Forall (fun d => confidence_threshold self < confidence d)
         (collect self width height rows).
Proof.
  induction rows as [|r rest IH]; cbn [collect]; [constructor|].
  destruct (Qgtb (row_confidence r) (confidence_threshold self)) eqn:E; [|exact IH].
  constructor; [|exact IH].
  apply Qgtb_true in E. unfold to_detection.
  destruct (row_box r) as [[[x1 y1] x2] y2]. exact E.
Qed.

(** The slice is a prefix. *)
Lemma slice_to_prefix {A} n (l : list A) :
  exists k, slice_to n l = take k l
            /\ ((Z.of_nat (length l) <= n)%Z -> drop k l = []).
Proof.
  unfold slice_to. destruct (0 <=? n)%Z eqn:E.
  - exists (Z.to_nat n). split; [reflexivity|].
    intros H. apply drop_ge. lia.
  - exists (length l - Z.to_nat (- n))%nat. split; [reflexivity|].
    apply Z.leb_gt in E. lia.
Qed.

(** X9: on a frame the pipeline accepts, every returned detection is above
    the confidence threshold, and the returned ones are the best: together
    with the dropped ones they are exactly the rows above the threshold, no
    dropped one is more confident than a returned one, and nothing is dropped
    when [max_detections] covers them all. *)
Theorem X9_detect_objects_returns_the_best self f height width dims rows :
  shape f = height :: width :: dims ->
  size f <> 0%nat ->
  net self f = Some rows ->
  Forall (fun d => confidence_threshold self < confidence d)
         (detect_objects self (Some f))
  /\ exists dropped,
       detect_objects self (Some f) ++ dropped ≡ₚ collect self width height rows
       /\ (forall kept x,
             kept ∈ detect_objects self (Some f) -> x ∈ dropped ->
             confidence x <= confidence kept)
       /\ ((Z.of_nat (length (collect self width height rows))
             <= max_detections self)%Z -> dropped = []).
Proof.
  intros Hshape Hsize Hnet. unfold detect_objects.
  apply Nat.eqb_neq in Hsize. rewrite Hsize, Hshape, Hnet.
  destruct (slice_to_prefix (max_detections self)
              (sort_desc (collect self width height rows))) as (k & -> & Hall).
  split.
  - apply Forall_take.
    apply Forall_forall. intros x Hx. rewrite sort_desc_perm in Hx.
    revert x Hx. apply Forall_forall. apply collect_above_threshold.
  - exists (drop k (sort_desc (collect self width height rows))).
    rewrite take_drop. repeat split.
    + apply sort_desc_perm.
    + intros kept x Hkept Hx.
      pose proof (sort_desc_strongly_sorted (collect self width height rows)) as Hs.
      rewrite <- (take_drop k) in Hs.
      exact (StronglySorted_app_1_elem_of _ _ _ _ _ Hs Hkept Hx).
    + intros Hlen. apply Hall.
      rewrite (Permutation_length (sort_desc_perm _)). exact Hlen.
Qed.

(** X9 on the three rows of [sample_rows], two of them above 0.6. *)
Lemma X9_detect_objects_witness :
  Forall (fun d => confidence_threshold sample_detector < confidence d)
         (detect_objects sample_detector (Some sample_frame))
  /\ exists dropped,
       detect_objects sample_detector (Some sample_frame) ++ dropped
         ≡ₚ collect sample_detector 300 300 sample_rows
       /\ (forall kept x,
             kept ∈ detect_objects sample_detector (Some sample_frame) ->
             x ∈ dropped -> confidence x <= confidence kept)
       /\ ((Z.of_nat (length (collect sample_detector 300 300 sample_rows))
             <= max_detections sample_detector)%Z -> dropped = []).
Proof.
  apply (X9_detect_objects_returns_the_best sample_detector sample_frame
           300 300 [3%nat] sample_rows).
  - reflexivity.
  - unfold size, sample_frame. cbn [shape foldr]. lia.
  - reflexivity.
Defined.

End selection_facts.

(** ** Command handlers and the detection loop *)
Module commands_facts.

Import main object_detector commands.

(** X10: a measure that times out is not reported as an error by
    [get_distance]: the handler answers with status [success] and a null
    distance. *)
Theorem X10_get_distance_on_timeout hw self k n fuel params now :
  ultrasonic.never_rises hw n \/ ultrasonic.never_falls hw k n ->
  (k < fuel)%nat -> (n < fuel)%nat ->
  exists c,
    _handle_bt_get_distance fuel hw self params now
    = ultrasonic.Return
        (JDict [("status", JStr "success");
                ("data", JDict [("distance", JNull); ("unit", JStr "cm");
                                ("timestamp", JFloat now)])]) c.
Proof.
  intros Hline Hk Hn. unfold _handle_bt_get_distance.
  assert (H : exists c, ultrasonic.measure_distance fuel hw (ultrasonic self)
                          ultrasonic.start = ultrasonic.Return None c).
  { destruct Hline as [Hrise | Hfall].
    - exact (ultrasonic_facts.measure_distance_never_rises _ _ n fuel Hrise Hn).
    - exact (ultrasonic_facts.measure_distance_never_falls _ _ k n fuel Hfall Hk Hn). }
  destruct H as [c Hc]. rewrite Hc. exists c. reflexivity.
Qed.

(** X10 on a line stuck low. *)
Lemma X10_get_distance_on_timeout_witness :
  exists c,
    _handle_bt_get_distance 1 ultrasonic.stuck_low_hw sample_app (JDict []) 7
    = ultrasonic.Return
        (JDict [("status", JStr "success");
                ("data", JDict [("distance", JNull); ("unit", JStr "cm");
                                ("timestamp", JFloat 7)])]) c.
Proof.
  apply (X10_get_distance_on_timeout ultrasonic.stuck_low_hw sample_app 0 0 1);
    [left; exact ultrasonic_facts.stuck_low_never_rises | lia | lia].
Defined.

Lemma objects_of_none detections :
  objects_of detections = None <-> detections <> [].
Proof.
  unfold objects_of. destruct detections as [|d rest]; cbn.
  - split; [discriminate | intros H; contradiction].
  - split; [discriminate | reflexivity].
Qed.

Lemma objects_of_some detections objects :
  objects_of detections = Some objects -> detections = [] /\ objects = [].
Proof.
  unfold objects_of. destruct detections as [|d rest]; cbn; [|discriminate].
  intros H. inversion H. split; reflexivity.
Qed.


(** X11: [get_objects] never reports an object.  The handler raises exactly
    when a frame is available and the detector finds something in it, and a
    response it does return carries no object name. *)
Theorem X11_get_objects_never_reports camera detector params now :
  (_handle_bt_get_objects camera detector params now = None
   <-> exists frame det,
         camera = Some (Some frame) /\ detector = Some det
         /\ detect_objects det (Some frame) <> [])
  /\ (forall response objects,
        _handle_bt_get_objects camera detector params now = Some response ->
        response_field response "objects" = Some (JList objects) ->
        objects = []).
Proof.
  unfold _handle_bt_get_objects.
  destruct camera as [[frame|]|]; destruct detector as [det|];
    try (split;
         [ split; [discriminate | intros (f & d & H1 & H2 & _); discriminate]
         | intros response objects H; inversion H; subst; cbn; discriminate ]).
  destruct (objects_of (detect_objects det (Some frame))) as [objects|] eqn:E.
  - apply objects_of_some in E as [Hnone ->].
    rewrite Hnone. cbn. split.
    + split; [discriminate|].
      intros (f & d & H1 & H2 & H3). inversion H1; inversion H2; subst.
      exfalso. apply H3. exact Hnone.
    + intros response objects H Hfield. inversion H; subst.
      cbn in Hfield. inversion Hfield. reflexivity.
  - cbn. split; [|discriminate]. split; [|reflexivity].
    intros _. exists frame, det. repeat split. apply objects_of_none. exact E.
Qed.

(** With a person in view the handler raises. *)
Example get_objects_with_an_object_in_view :
  _handle_bt_get_objects (Some (Some sample_frame)) (Some sample_detector)
    (JDict []) 7 = None.
Proof. vm_compute. reflexivity. Qed.

(** X12: the detection loop never broadcasts an objects update: a pass that
    detects something speaks and vibrates, then the exception raised in
    [_broadcast_objects] ends the loop; every other pass only pauses. *)
Theorem X12_detection_loop_never_broadcasts
    capture_interval app frame detector last current stamp :
  Forall (fun a => ~ is_broadcast a)
         (acts_of (detection_pass capture_interval app frame detector
                     last current stamp))
  /\ (forall f d rest,
        capture_interval <= current - last -> frame = Some f ->
        detect_objects detector (Some f) = d :: rest ->
        detection_pass capture_interval app frame detector last current stamp
        = Ends ((if audio app
                 then [Say (summary.get_detection_summary (d :: rest))] else [])
                ++ (if haptic app then [VibrateInfo] else []))).
Proof.
  unfold detection_pass. split.
  - destruct (Qltb (current - last) capture_interval);
      [repeat constructor; intros []|].
    destruct frame as [f|]; [|repeat constructor; intros []].
    destruct (detect_objects detector (Some f)) as [|d rest];
      [repeat constructor; intros []|].
    cbn. destruct (audio app); destruct (haptic app);
      repeat constructor; intros [].
  - intros f d rest Hdue -> Hdet. apply Qltb_false in Hdue.
    rewrite Hdue, Hdet. reflexivity.
Qed.

End commands_facts.

(** ** The speech queue *)
Module audio_facts.

Import audio.

Lemma tidy_step a o : tidy a -> tidy (step a o).
Proof.
  unfold tidy. intros H. destruct o as [text priority| |]; cbn [step].
  - unfold speak. destruct text as [|c text]; [exact H|].
    revert H. destruct (speaking a); cbn [speaking workers speech_queue];
      intros [Hw Hq]; (split; [lia | discriminate]).
  - unfold worker_turn. revert H.
    destruct (workers a) as [|others] eqn:Ew, (speaking a) eqn:E,
      (speech_queue a) as [|text rest] eqn:Eq;
      cbn [speaking workers speech_queue]; rewrite ?Ew, ?E, ?Eq;
      intros [Hw Hq];
      (split; [lia | first [reflexivity | discriminate | exact Hq]]).
  - unfold stop_all. cbn [speaking workers speech_queue].
    destruct H as [Hw Hq]. split; [exact Hw | reflexivity].
Qed.

Lemma tidy_run ops : forall a, tidy a -> tidy (run a ops).
Proof.
  induction ops as [|o ops IH]; intros a H; [exact H|].
  cbn [run fold_left]. apply IH, tidy_step, H.
Qed.

(** X13: under any interleaving of [speak], worker rounds and [stop_all],
    there is never more than one worker thread, it is alive exactly while
    [speaking] is set, and no message sits in the queue without a worker to
    play it. *)
Theorem X13_one_worker_and_no_stranded_message ops :
  workers (run new ops) = (if speaking (run new ops) then 1 else 0)%nat
  /\ (speaking (run new ops) = false -> speech_queue (run new ops) = []).
Proof. apply (tidy_run ops new). split; reflexivity. Qed.

Lemma requested_speak text priority rest :
  requested (Speak text priority :: rest)
  = match text with EmptyString => [] | _ => [text] end ++ requested rest.
Proof. destruct text; reflexivity. Qed.

(** What has been played and what is still queued, from any state. *)
Lemma nothing_lost ops :
  forall a,
    Forall (fun o => ~ is_stop o) ops ->
    played (run a ops) ++ speech_queue (run a ops)
      ≡ₚ (played a ++ speech_queue a) ++ requested ops
    /\ (Forall (fun o => ~ is_urgent o) ops ->
        played (run a ops) ++ speech_queue (run a ops)
        = (played a ++ speech_queue a) ++ requested ops).
Proof.
  induction ops as [|o ops IH]; intros a Hstop.
  - cbn. rewrite app_nil_r. split; reflexivity.
  - inversion Hstop as [|? ? Ho Hrest]; subst.
    cbn [run fold_left]. fold (run (step a o) ops).
    destruct (IH (step a o) Hrest) as [Hperm Heq].
    destruct o as [text priority| |]; [| |exfalso; apply Ho; exact I].
    + rewrite requested_speak. cbn [step]. cbn [step] in Hperm, Heq.
      assert (Hq : played (speak a text priority) ++ speech_queue (speak a text priority)
                   ≡ₚ (played a ++ speech_queue a)
                      ++ match text with EmptyString => [] | _ => [text] end
                   /\ (priority = false ->
                       played (speak a text priority) ++ speech_queue (speak a text priority)
                       = (played a ++ speech_queue a)
                         ++ match text with EmptyString => [] | _ => [text] end)).
      { unfold speak. destruct text as [|c text].
        - rewrite app_nil_r. split; reflexivity.
        - destruct priority.
          + split; [|discriminate].
            destruct (speaking a); cbn [played speech_queue];
              rewrite <- app_assoc; apply Permutation_app_head,
                Permutation_cons_append.
          + destruct (speaking a); cbn [played speech_queue];
              rewrite app_assoc; (split; [reflexivity | intros _; reflexivity]). }
      destruct Hq as [Hq1 Hq2]. split.
      * rewrite Hperm, Hq1, <- app_assoc. reflexivity.
      * intros Hurgent. inversion Hurgent as [|? ? Hu Hrest']; subst.
        rewrite (Heq Hrest'), Hq2, <- app_assoc; [reflexivity|].
        destruct priority; [exfalso; apply Hu; exact I | reflexivity].
    + cbn [requested step]. cbn [step] in Hperm, Heq.
      assert (Hq : played (worker_turn a) ++ speech_queue (worker_turn a)
                   = played a ++ speech_queue a).
      { unfold worker_turn. destruct (workers a); [reflexivity|].
        destruct (speech_queue a) as [|text rest]; cbn [played speech_queue];
          [reflexivity|]. rewrite <- app_assoc. reflexivity. }
      rewrite Hq in Hperm, Heq. split; [exact Hperm|].
      intros Hurgent. inversion Hurgent; subst. auto.
Qed.

(** X14: as long as [stop_all] is not called, no message is lost or played
    twice, under any interleaving of [speak] and worker rounds: the texts
    played so far followed by those still queued are the non-empty texts
    requested, up to order; and in the order requested when no call has
    priority. *)
Theorem X14_messages_are_not_lost ops :
  Forall (fun o => ~ is_stop o) ops ->
  played (run new ops) ++ speech_queue (run new ops) ≡ₚ requested ops
  /\ (Forall (fun o => ~ is_urgent o) ops ->
      played (run new ops) ++ speech_queue (run new ops) = requested ops).
Proof. intros H. exact (nothing_lost ops new H). Qed.

(** X14 on two requests with a worker round in between. *)
Lemma X14_messages_are_not_lost_witness :
  played (run new [Speak "un" false; WorkerTurn; Speak "deux" false])
    ++ speech_queue (run new [Speak "un" false; WorkerTurn; Speak "deux" false])
    ≡ₚ ["un"; "deux"]
  /\ (Forall (fun o => ~ is_urgent o) [Speak "un" false; WorkerTurn; Speak "deux" false] ->
      played (run new [Speak "un" false; WorkerTurn; Speak "deux" false])
        ++ speech_queue (run new [Speak "un" false; WorkerTurn; Speak "deux" false])
      = ["un"; "deux"]).
Proof.
  apply (X14_messages_are_not_lost [Speak "un" false; WorkerTurn; Speak "deux" false]).
  repeat constructor; intros [].
Defined.

Lemma tidy_burst calls : forall a, tidy a -> tidy (burst a calls).
Proof.
  induction calls as [|[text priority] rest IH]; intros a H; [exact H|].
  cbn [burst fold_left fst snd]. apply IH.
  exact (tidy_step a (Speak text priority) H).
Qed.

(** The queue after a burst: urgent texts at the head, the latest first, then
    what was queued, then the ordinary texts in order. *)
Lemma burst_queue calls :
  forall a,
    speech_queue (burst a calls)
      = rev (texts true calls) ++ speech_queue a ++ texts false calls
    /\ played (burst a calls) = played a.
Proof.
  induction calls as [|[text priority] rest IH]; intros a.
  - cbn. rewrite app_nil_r. split; reflexivity.
  - cbn [burst fold_left fst snd]. fold (burst (speak a text priority) rest).
    destruct (IH (speak a text priority)) as [Hq Hp]. rewrite Hq, Hp.
    unfold texts. cbn [List.filter fst snd].
    destruct text as [|c text]; [split; reflexivity|].
    cbn [String.eqb negb andb].
    unfold speak.
    destruct priority; destruct (speaking a);
      cbn [Bool.eqb map fst rev played speech_queue];
      (split; [|reflexivity]); rewrite <- ?app_assoc; reflexivity.
Qed.

(** A live worker left alone plays the whole queue in order, then exits. *)
Lemma turns_play_the_queue queue :
  forall a others,
    speech_queue a = queue -> workers a = S others ->
    turns (S (length queue)) a
    = {| speaking := false; speech_queue := []; workers := others;
         played := played a ++ queue |}.
Proof.
  induction queue as [|text rest IH]; intros a others Hq Hw.
  - cbn [length turns]. unfold worker_turn. rewrite Hw, Hq, app_nil_r. reflexivity.
  - cbn [length]. change (turns (S (S (length rest))) a)
      with (turns (S (length rest)) (worker_turn a)).
    rewrite (IH (worker_turn a) others).
    + unfold worker_turn. rewrite Hw, Hq. cbn [played].
      rewrite <- app_assoc. reflexivity.
    + unfold worker_turn. rewrite Hw, Hq. reflexivity.
    + unfold worker_turn. rewrite Hw, Hq. reflexivity.
Qed.

(** X15: after a burst of [speak] calls on an idle instance, the worker plays
    the urgent texts first, the most recent one first, then the ordinary
    texts in the order of the calls; empty texts are skipped; and it leaves
    the instance idle. *)
Theorem X15_urgent_messages_overtake calls :
  played (drain (burst new calls)) = rev (texts true calls) ++ texts false calls
  /\ speech_queue (drain (burst new calls)) = []
  /\ speaking (drain (burst new calls)) = false
  /\ workers (drain (burst new calls)) = 0%nat.
Proof.
  destruct (burst_queue calls new) as [Hq Hp].
  destruct (tidy_burst calls new) as [Hw Hidle]; [split; reflexivity|].
  cbn [speech_queue played new List.app] in Hq, Hp. unfold drain.
  destruct (workers (burst new calls)) as [|others] eqn:Ew.
  - destruct (speaking (burst new calls)) eqn:Es; [discriminate|].
    specialize (Hidle eq_refl). rewrite Hidle in *.
    cbn [length turns]. unfold worker_turn. rewrite Ew.
    repeat split; congruence.
  - destruct (speaking (burst new calls)); [|discriminate].
    assert (others = 0%nat) as -> by lia.
    rewrite (turns_play_the_queue _ _ 0%nat eq_refl Ew).
    cbn [played speech_queue speaking workers]. rewrite Hp, Hq.
    repeat split; reflexivity.
Qed.

(** The order checked by [test_priority_message], with a second urgent text. *)
Example urgent_messages_first :
  played (drain (burst new [("Message normal", false); ("", true);
                            ("Message prioritaire", true); ("Danger", true);
                            ("Suite", false)]))
  = ["Danger"; "Message prioritaire"; "Message normal"; "Suite"].
Proof. reflexivity. Qed.

End audio_facts.

(** ** Newline framing on the serial line *)
Module usb_framing_facts.

Import usb usb_framing.

Lemma append_nil (b : string) : "" +:+ b = b.
Proof. reflexivity. Qed.

Lemma append_cons c (a b : string) : String c a +:+ b = String c (a +:+ b).
Proof. reflexivity. Qed.

Lemma append_assoc (a b c : string) : (a +:+ b) +:+ c = a +:+ (b +:+ c).
Proof.
  induction a as [|x a IH]; rewrite ?append_nil, ?append_cons; [reflexivity|].
  rewrite IH. reflexivity.
Qed.

Lemma split_nl_nonempty s : split_nl s <> [].
Proof.
  destruct s as [|c rest]; cbn; [discriminate|].
  destruct (Ascii.eqb c newline); [discriminate|].
  destruct (split_nl rest); discriminate.
Qed.

(** Without a newline there is one piece, the string itself. *)
Lemma split_nl_no_newline s : has_newline s = false -> split_nl s = [s].
Proof.
  induction s as [|c rest IH]; cbn; [reflexivity|].
  intros H. apply orb_false_iff in H as [Hc Hrest].
  rewrite Hc, (IH Hrest). reflexivity.
Qed.

(** No piece contains a newline. *)
Lemma split_nl_pieces s : Forall (fun piece => has_newline piece = false) (split_nl s).
Proof.
  induction s as [|c rest IH]; cbn; [repeat constructor|].
  destruct (Ascii.eqb c newline) eqn:E; [constructor; [reflexivity | exact IH]|].
  destruct (split_nl rest) as [|piece pieces];
    [repeat constructor; cbn; rewrite E; reflexivity|].
  inversion IH; subst. constructor; [|assumption]. cbn. rewrite E. assumption.
Qed.

(** Splitting loses nothing. *)
Lemma split_nl_reassembles s :
  terminated (removelast (split_nl s)) +:+ List.last (split_nl s) "" = s.
Proof.
  induction s as [|c rest IH]; [reflexivity|]. cbn [split_nl].
  pose proof (split_nl_nonempty rest) as Hne.
  destruct (Ascii.eqb c newline) eqn:E.
  - apply Ascii.eqb_eq in E. subst c.
    destruct (split_nl rest) as [|piece pieces] eqn:Es; [contradiction|].
    change (removelast ("" :: piece :: pieces))
      with ("" :: removelast (piece :: pieces)).
    change (List.last ("" :: piece :: pieces) "")
      with (List.last (piece :: pieces) "").
    cbn [terminated]. rewrite append_nil, append_cons, IH. reflexivity.
  - destruct (split_nl rest) as [|piece pieces] eqn:Es; [contradiction|].
    destruct pieces as [|piece' pieces'].
    + cbn [removelast List.last terminated] in *.
      rewrite append_nil in *. rewrite IH. reflexivity.
    + change (removelast (String c piece :: piece' :: pieces'))
        with (String c piece :: removelast (piece' :: pieces')).
      change (List.last (String c piece :: piece' :: pieces') "")
        with (List.last (piece' :: pieces') "").
      change (removelast (piece :: piece' :: pieces'))
        with (piece :: removelast (piece' :: pieces')) in IH.
      change (List.last (piece :: piece' :: pieces') "")
        with (List.last (piece' :: pieces') "") in IH.
      cbn [terminated] in *. rewrite !append_cons. rewrite IH. reflexivity.
Qed.

(** Splitting a concatenation: the complete lines of the first part, then the
    split of its unfinished end followed by the second part. *)
Lemma split_nl_app a b :
  split_nl (a +:+ b)
  = removelast (split_nl a) ++ split_nl (List.last (split_nl a) "" +:+ b).
Proof.
  induction a as [|c rest IH]; [reflexivity|].
  rewrite append_cons. cbn [split_nl].
  pose proof (split_nl_nonempty rest) as Hne.
  destruct (Ascii.eqb c newline) eqn:E.
  - destruct (split_nl rest) as [|piece pieces] eqn:Es; [contradiction|].
    rewrite IH. reflexivity.
  - rewrite IH.
    destruct (split_nl rest) as [|piece pieces] eqn:Es; [contradiction|].
    destruct pieces as [|piece' pieces'].
    + cbn [removelast List.last List.app]. rewrite append_cons.
      cbn [split_nl]. rewrite E. reflexivity.
    + reflexivity.
Qed.

Lemma dispatch_app {W} py write_ok (self : USBManager W) l1 :
  forall l2 w,
    dispatch py write_ok self (l1 ++ l2) w
    = ((dispatch py write_ok self l2 (dispatch py write_ok self l1 w).1).1,
       (dispatch py write_ok self l1 w).2
       ++ (dispatch py write_ok self l2 (dispatch py write_ok self l1 w).1).2).
Proof.
  induction l1 as [|line rest IH]; intros l2 w; cbn [List.app dispatch].
  - cbn. destruct (dispatch py write_ok self l2 w). reflexivity.
  - destruct (blank line); [apply IH|].
    destruct (_process_received_data py write_ok self line w) as [w1 evs1].
    rewrite IH.
    destruct (dispatch py write_ok self rest w1) as [w2 evs2]. cbn [fst snd].
    destruct (dispatch py write_ok self l2 w2) as [w3 evs3]. cbn [fst snd].
    rewrite app_assoc. reflexivity.
Qed.

(** A round in closed form, newline or not. *)
Lemma read_round_eq {W} py write_ok (self : USBManager W) buffer data w :
  read_round py write_ok self buffer data w
  = (List.last (split_nl (buffer +:+ data)) "",
     dispatch py write_ok self (removelast (split_nl (buffer +:+ data))) w).
Proof.
  unfold read_round. destruct (has_newline (buffer +:+ data)) eqn:E; [reflexivity|].
  rewrite (split_nl_no_newline _ E). reflexivity.
Qed.

Lemma last_app_nonempty {A} (l l' : list A) d :
  l' <> [] -> List.last (l ++ l') d = List.last l' d.
Proof.
  intros Hne. induction l as [|x l IH]; [reflexivity|].
  cbn [List.app]. destruct (l ++ l') eqn:E.
  - apply app_eq_nil in E as [_ ?]. contradiction.
  - rewrite <- E at 1. rewrite <- IH. rewrite E. reflexivity.
Qed.

(** X16: a round of the read loop loses nothing and keeps no complete line:
    the lines it takes off the buffer, each with its newline, followed by the
    buffer it keeps, are the old buffer followed by the data read; no line and
    no kept buffer contains a newline; and the lines taken are dispatched. *)
Theorem X16_read_round_reassembles {W} py write_ok (self : USBManager W)
    buffer data w :
  terminated (removelast (split_nl (buffer +:+ data)))
    +:+ (read_round py write_ok self buffer data w).1 = buffer +:+ data
  /\ has_newline (read_round py write_ok self buffer data w).1 = false
  /\ Forall (fun line => has_newline line = false)
            (removelast (split_nl (buffer +:+ data)))
  /\ (read_round py write_ok self buffer data w).2
     = dispatch py write_ok self (removelast (split_nl (buffer +:+ data))) w.
Proof.
  rewrite read_round_eq. cbn [fst snd].
  pose proof (split_nl_pieces (buffer +:+ data)) as Hpieces.
  pose proof (split_nl_nonempty (buffer +:+ data)) as Hne.
  rewrite (app_removelast_last "" Hne) in Hpieces.
  apply Forall_app in Hpieces as [Hlines Hlast].
  repeat split.
  - apply split_nl_reassembles.
  - inversion Hlast; assumption.
  - exact Hlines.
Qed.

(** X17: how the bytes are cut into reads does not matter: two rounds on
    [data1] then [data2] dispatch the same lines to the same handlers, leave
    the same application and write the same answers as one round on
    [data1] followed by [data2], and keep the same buffer. *)
Theorem X17_reads_can_be_cut_anywhere {W} py write_ok (self : USBManager W)
    buffer data1 data2 w :
  read_rounds2 py write_ok self buffer data1 data2 w
  = read_round py write_ok self buffer (data1 +:+ data2) w.
Proof.
  unfold read_rounds2. rewrite !read_round_eq.
  destruct (dispatch py write_ok self (removelast (split_nl (buffer +:+ data1))) w)
    as [w1 evs1] eqn:E1.
  rewrite read_round_eq.
  destruct (dispatch py write_ok self
              (removelast (split_nl (List.last (split_nl (buffer +:+ data1)) ""
                                     +:+ data2))) w1)
    as [w2 evs2] eqn:E2.
  rewrite <- append_assoc, (split_nl_app (buffer +:+ data1) data2).
  pose proof (split_nl_nonempty
                (List.last (split_nl (buffer +:+ data1)) "" +:+ data2)) as Hne.
  rewrite (last_app_nonempty _ _ _ Hne), (removelast_app _ Hne).
  rewrite dispatch_app, E1. cbn [fst snd]. rewrite E2. reflexivity.
Qed.

(** A command cut in the middle, with a blank line before it, on the sample
    port: the two reads give what the single read gives. *)
Example read_cut_in_the_middle :
  read_rounds2 sample_py true main.sample_usb "" (String newline "{")
    ("}" +:+ String newline "no") main.sample_app
  = ("no",
     (main.sample_app,
      [Written (json_dumps sample_py (unknown_command sample_py (JStr ""))
                +:+ String newline "")])).
Proof. reflexivity. Qed.

End usb_framing_facts.

(** ** Registration, dispatch and the life of a connection *)
Module server_facts.

Import bluetooth bluetooth_server.





(** X20: a connection leaves no trace: when a peer with a fresh id is
    accepted and its handler thread later ends (peer closed, timeout, error,
    or server stopping), the manager is exactly what it was before the
    accept, and the last thing done is the close of that peer's socket. *)
Theorem X20_connection_leaves_no_trace {W} py send_ok (self : BluetoothManager W)
    sock peer thread_id script w :
  clients self !! client_id_of peer = None ->
  exists w' evs,
    _client_handler py send_ok (accepted self sock peer thread_id)
      (client_id_of peer) script w
    = Some (self, (w', evs ++ [Closed sock])).
Proof.
  intros Hfresh. unfold _client_handler, accepted.
  cbn [clients is_running device_name data_callback command_handlers].
  rewrite lookup_insert_eq.
  rewrite delete_insert_eq, (delete_id _ _ Hfresh).
  destruct self as [name running table callback handlers].
  cbn [clients is_running device_name data_callback command_handlers socket].
  destruct running.
  - destruct (serve py send_ok _ (client_id_of peer) script w) as [w' evs].
    exists w', evs. reflexivity.
  - exists w, []. reflexivity.
Qed.

(** X20 for a fourth peer that sends one frame and closes. *)
Lemma X20_connection_leaves_no_trace_witness :
  exists w' evs,
    _client_handler sample_py (fun _ => true)
      (accepted main.sample_bluetooth 4 ("DD:04", 1%Z) 4)
      (client_id_of ("DD:04", 1%Z)) [Data "{}"; Data ""] main.sample_app
    = Some (main.sample_bluetooth, (w', evs ++ [Closed 4])).
Proof.
  apply (X20_connection_leaves_no_trace sample_py (fun _ => true)
           main.sample_bluetooth 4 ("DD:04", 1%Z) 4 [Data "{}"; Data ""]
           main.sample_app).
  vm_compute. reflexivity.
Defined.

Lemma stop_closes {W} (self : BluetoothManager W) client_id c :
  is_running self = true -> clients self !! client_id = Some c ->
  Closed (socket c) ∈ (stop self).2.
Proof.
  intros Hrun Hc. unfold stop. rewrite Hrun. cbn [snd].
  apply list_elem_of_fmap. exists (client_id, c). split; [reflexivity|].
  apply elem_of_map_to_list. exact Hc.
Qed.

(** X21: stopping a running manager closes the socket of every tracked
    client, one close per client and nothing else, leaves an empty table and
    the manager not running; a second [stop] and a later [broadcast] then do
    nothing. *)
Theorem X21_stop_closes_everything {W} py send_ok (self : BluetoothManager W) data :
  is_running self = true ->
  is_running (stop self).1 = false
  /\ clients (stop self).1 = ∅
  /\ (forall client_id c,
        clients self !! client_id = Some c -> Closed (socket c) ∈ (stop self).2)
  /\ length (stop self).2 = size (clients self)
  /\ Forall is_close (stop self).2
  /\ stop (stop self).1 = ((stop self).1, [])
  /\ broadcast py send_ok (stop self).1 data = ((stop self).1, []).
Proof.
  intros Hrun. repeat split.
  - unfold stop. rewrite Hrun. reflexivity.
  - unfold stop. rewrite Hrun. reflexivity.
  - intros client_id c Hc. exact (stop_closes self client_id c Hrun Hc).
  - unfold stop. rewrite Hrun. cbn [snd]. rewrite length_map.
    apply length_map_to_list.
  - unfold stop. rewrite Hrun. cbn [snd]. apply Forall_forall.
    intros e He. apply list_elem_of_fmap in He as (item & -> & _). exact I.
  - unfold stop. rewrite Hrun. reflexivity.
  - unfold stop. rewrite Hrun. cbn [fst]. unfold broadcast. cbn [clients].
    destruct (decide (∅ = ∅)) as [_|Hne]; [reflexivity | contradiction].
Qed.

(** X21 on the manager with three clients. *)
Lemma X21_stop_closes_everything_witness :
  is_running (stop main.sample_bluetooth).1 = false
  /\ clients (stop main.sample_bluetooth).1 = ∅
  /\ (forall client_id c,
        clients main.sample_bluetooth !! client_id = Some c ->
        Closed (socket c) ∈ (stop main.sample_bluetooth).2)
  /\ length (stop main.sample_bluetooth).2 = size (clients main.sample_bluetooth)
  /\ Forall is_close (stop main.sample_bluetooth).2
  /\ stop (stop main.sample_bluetooth).1 = ((stop main.sample_bluetooth).1, [])
  /\ broadcast sample_py (fun _ => true) (stop main.sample_bluetooth).1 JNull
     = ((stop main.sample_bluetooth).1, []).
Proof.
  apply (X21_stop_closes_everything sample_py (fun _ => true)
           main.sample_bluetooth JNull).
  reflexivity.
Defined.

(** A table whose sockets all accept the write is left as it is. *)
Lemma broadcast_all_ok {W} py send_ok (self : BluetoothManager W) data :
  (forall client_id c,
      clients self !! client_id = Some c -> send_ok (socket c) = true) ->
  broadcast py send_ok self data
  = (self, if decide (clients self = ∅) then []
           else map (fun item : string * Client =>
                       Sent (socket item.2) (json_dumps py data))
                    (map_to_list (clients self))).
Proof.
  intros Hok. unfold broadcast.
  destruct (decide (clients self = ∅)) as [He|Hne]; [reflexivity|].
  assert (Hsend : send_each send_ok (json_dumps py data) (map_to_list (clients self))
                  = ([], map (fun item : string * Client =>
                                Sent (socket item.2) (json_dumps py data))
                             (map_to_list (clients self)))).
  { assert (Hall : Forall (fun item : string * Client => send_ok (socket item.2) = true)
                          (map_to_list (clients self))).
    { apply Forall_forall. intros [cid c] Hin.
      apply elem_of_map_to_list in Hin. exact (Hok cid c Hin). }
    induction Hall as [|[cid c] rest Hc Hrest IH]; [reflexivity|].
    cbn [send_each map snd]. rewrite IH. cbn [snd] in Hc. rewrite Hc. reflexivity. }
  rewrite Hsend. cbn [purge]. rewrite app_nil_r.
  destruct self. reflexivity.
Qed.

(** Who is in the table after a broadcast was there before, with a socket
    that took the write. *)
Lemma broadcast_survivors {W} py send_ok (self : BluetoothManager W) data client_id c :
  clients (broadcast py send_ok self data).1 !! client_id = Some c ->
  clients self !! client_id = Some c /\ send_ok (socket c) = true.
Proof.
  intros Hafter.
  assert (Hbefore : clients self !! client_id = Some c).
  { revert Hafter. unfold broadcast.
    destruct (decide (clients self = ∅)); [auto|].
    destruct (send_each send_ok (json_dumps py data) (map_to_list (clients self)))
      as [disconnected sends].
    pose proof (broadcast_facts.purge_lookup disconnected (clients self) client_id) as Hl.
    destruct (purge disconnected (clients self)) as [table closes].
    cbn [fst clients] in *. rewrite Hl.
    destruct (decide (client_id ∈ disconnected)); [discriminate | auto]. }
  split; [exact Hbefore|].
  destruct (send_ok (socket c)) eqn:E; [reflexivity|].
  destruct (broadcast_facts.broadcast_outcome py send_ok self data) as (_ & Hfail & _).
  destruct (Hfail client_id c Hbefore E) as [_ Hgone]. congruence.
Qed.

(** X22: a broadcast never adds a client and cleans up for good: whoever is
    in the table afterwards was there before with a working socket, and a
    second broadcast over the same sockets reaches every remaining client,
    closes nothing and leaves the table as it is. *)
Theorem X22_broadcast_cleans_up_once {W} py send_ok (self : BluetoothManager W)
    data data' :
  (forall client_id c,
      clients (broadcast py send_ok self data).1 !! client_id = Some c ->
      clients self !! client_id = Some c /\ send_ok (socket c) = true)
  /\ (broadcast py send_ok (broadcast py send_ok self data).1 data').1
     = (broadcast py send_ok self data).1
  /\ Forall (fun e => exists sock, e = Sent sock (json_dumps py data'))
            (broadcast py send_ok (broadcast py send_ok self data).1 data').2.
Proof.
  split; [intros client_id c; apply broadcast_survivors|].
  rewrite (broadcast_all_ok py send_ok (broadcast py send_ok self data).1 data').
  - cbn [fst snd]. split; [reflexivity|].
    destruct (decide (clients (broadcast py send_ok self data).1 = ∅));
      [constructor|].
    apply Forall_forall. intros e He.
    apply list_elem_of_fmap in He as (item & -> & _). eauto.
  - intros client_id c Hc. apply (broadcast_survivors _ _ _ _ _ _ Hc).
Qed.

End server_facts.
